(** * ServerXmlDocument: the tree synchronisation layer over a Yjs XML tree

    A shallow embedding of [ServerXmlDocument] (the class of
    [src/build-for-ts-browser.js]): the serializer, the change observer
    registered with [observeDeep], node construction from specs and the
    change applier [applyChanges].

    The replicated tree itself belongs to the Yjs engine.  Its positional
    child primitives and attribute maps are modelled here by lists and
    finite maps; what the layer does not look into (the text-run editing
    algorithms, the undo manager, the identifier generator) is the
    interface [Engine] below. *)

From stdpp Require Import gmap strings list pretty.

#[local] Set Warnings "-register-all".

(** ** JavaScript values

    Commands arrive as JSON and specs are typed [any]: the values the
    layer reads by property name.  Objects keep their properties in
    insertion order, the order [Object.keys] lists them in. *)

Inductive JsVal : Type :=
| JUndefined
| JNull
| JBool (b : bool)
| JNum (z : Z)
| JStr (s : string)
| JArr (items : list JsVal)
| JObj (fields : list (string * JsVal)).

(** [if (v)] *)
Definition truthy (v : JsVal) : bool :=
  match v with
  | JUndefined | JNull => false
  | JBool b => b
  | JNum z => negb (z =? 0)%Z
  | JStr s => negb (String.eqb s "")
  | JArr _ | JObj _ => true
  end.

(** The left operand of [??] that lets the right one through. *)
Definition nullish (v : JsVal) : bool :=
  match v with
  | JUndefined | JNull => true
  | _ => false
  end.

(** [v === s] for a string [s]. *)
Definition strictEqStr (v : JsVal) (s : string) : bool :=
  match v with
  | JStr t => String.eqb t s
  | _ => false
  end.

Definition chars (s : string) : list JsVal :=
  (λ c, JStr (String c "")) <$> String.list_ascii_of_string s.

(** The own enumerable properties of a value: the fields of an object, the
    indexed items of an array or of a string. *)
Definition jsentries (v : JsVal) : list (string * JsVal) :=
  match v with
  | JObj fs => fs
  | JArr l => imap (λ i x, (pretty i, x)) l
  | JStr s => imap (λ i x, (pretty i, x)) (chars s)
  | _ => []
  end.

Fixpoint assoc (k : string) (fs : list (string * JsVal)) : option JsVal :=
  match fs with
  | [] => None
  | (k', v) :: fs' => if String.eqb k' k then Some v else assoc k fs'
  end.

(** [v.k] and [v[k]] on a value that is neither [undefined] nor [null];
    a property that is not there reads [undefined]. *)
Definition jsget (v : JsVal) (k : string) : JsVal :=
  default JUndefined (assoc k (jsentries v)).

(** [Object.keys(v)] *)
Definition jskeys (v : JsVal) : list string := (jsentries v).*1.

(** [for (const x of v)]: arrays and strings are iterable, nothing else. *)
Definition jsiter (v : JsVal) : option (list JsVal) :=
  match v with
  | JArr l => Some l
  | JStr s => Some (chars s)
  | _ => None
  end.

(** ** The replicated tree

    A [Y.XmlElement] has a node name, an attribute map and an ordered list
    of children; a [Y.XmlText] is a sequence of styled spans, the form
    [toDelta] reports it in. *)

Record Span := { sp_insert : string; sp_attributes : gmap string JsVal }.

Inductive Node : Type :=
| XmlElement (nodeName : JsVal) (attrs : gmap string JsVal) (children : list Node)
| XmlText (content : list Span).

Section Node_induction.
Variable P : Node → Prop.
Hypothesis Helement : ∀ nm a cs, Forall P cs → P (XmlElement nm a cs).
Hypothesis Htext : ∀ c, P (XmlText c).

Fixpoint Node_forall_ind (n : Node) : P n :=
  match n with
  | XmlElement nm a cs =>
      Helement nm a cs
        ((fix go (l : list Node) : Forall P l :=
            match l with
            | [] => @List.Forall_nil _ P
            | x :: l' => @List.Forall_cons _ P x l' (Node_forall_ind x) (go l')
            end) cs)
  | XmlText c => Htext c
  end.
End Node_induction.

(** [new Y.XmlElement(name)]: the constructor's parameter defaults to
    ['UNDEFINED'] when the argument is [undefined]. *)
Definition newXmlElement (name : JsVal) : Node :=
  XmlElement (match name with JUndefined => JStr "UNDEFINED" | _ => name end) ∅ [].

(** [node.getAttribute(k)] *)
Definition getAttribute (node : Node) (k : string) : JsVal :=
  match node with
  | XmlElement _ a _ => default JUndefined (a !! k)
  | XmlText _ => JUndefined
  end.

(** [node.getAttributes()]: the attribute map as a plain object. *)
Definition getAttributes (a : gmap string JsVal) : JsVal := JObj (map_to_list a).

Definition childrenOf (node : Node) : list Node :=
  match node with
  | XmlElement _ _ cs => cs
  | XmlText _ => []
  end.

Definition nodeNameOf (node : Node) : JsVal :=
  match node with
  | XmlElement nm _ _ => nm
  | XmlText _ => JUndefined
  end.

Definition isElement (node : Node) : bool :=
  match node with
  | XmlElement _ _ _ => true
  | XmlText _ => false
  end.

(** One op of [text.toDelta()]: the attributes are listed only when there
    are some. *)
Definition spanToDelta (s : Span) : JsVal :=
  JObj (("insert", JStr (sp_insert s))
        :: (if decide (size (sp_attributes s) = 0) then []
            else [("attributes", getAttributes (sp_attributes s))])).

Definition toDelta (content : list Span) : JsVal := JArr (spanToDelta <$> content).

(** [text.applyDelta(delta)] on a text run that was just created: every op
    that inserts a string appends a span, with [op.attributes || {}] as its
    formatting.  Nothing is there to retain or to delete. *)
Definition setAll (m : gmap string JsVal) (fs : list (string * JsVal)) : gmap string JsVal :=
  foldl (λ acc kv, <[kv.1 := kv.2]> acc) m fs.

Definition spanOfDelta (op : JsVal) : option Span :=
  match jsget op "insert" with
  | JStr s =>
      Some {| sp_insert := s;
              sp_attributes :=
                if truthy (jsget op "attributes")
                then setAll ∅ (jsentries (jsget op "attributes")) else ∅ |}
  | _ => None
  end.

Definition applyDeltaFresh (delta : JsVal) : list Span :=
  match delta with
  | JArr ops => omap spanOfDelta ops
  | _ => []
  end.

(** ** serialize (lines 241-272)

    The declared parameter type is [Y.XmlElement | Y.XmlText], the two
    constructors of [Node]; the final [throw] of the source needs a third
    kind of node. *)
Fixpoint serialize (node : Node) : JsVal :=
  match node with
  | XmlElement nodeName attrs children =>
      JObj [("element",
             JObj [("tagName", nodeName);
                   ("attributes", getAttributes attrs);
                   ("children", JArr (List.filter truthy (List.map serialize children)))])]
  | XmlText content =>
      JObj [("text", JObj [("delta", toDelta content)])]
  end.

(** ** Change notifications (the interfaces of lines 31-64) *)

(** What a delta entry inserts: an array of nodes on a child list, a string
    on a text run. *)
Inductive YInsert : Type :=
| InsNodes (nodes : list Node)
| InsText (s : string).

Record ChangeNotificationElements := {
  cne_retain : option nat;
  cne_insert : option (list JsVal);
  cne_delete : option nat }.

Record ChangeNotificationAttributesSet := { name : string; value : JsVal }.

Record ChangeNotificationAttributes := {
  attr_set : list ChangeNotificationAttributesSet;
  attr_delete : list string }.

Record ChangeNotificationText := {
  cnt_retain : option nat;
  cnt_insert : option YInsert;
  cnt_delete : option nat;
  cnt_attributes : option (gmap string JsVal) }.

Record ChangeNotification := {
  root : bool;
  target : JsVal;
  elements : list ChangeNotificationElements;
  attributes : ChangeNotificationAttributes;
  text : list ChangeNotificationText }.

(** ** The deep-change feed

    One event of [observeDeep]: the node it is about, addressed by its
    position under the root, [changes.delta] and [changes.keys]. *)

Record YDelta := {
  d_retain : option nat;
  d_insert : option YInsert;
  d_delete : option nat;
  d_attributes : option (gmap string JsVal) }.

Inductive KeyAction : Type := Add | Update | Delete.

Record YKeyChange := { action : KeyAction; oldValue : JsVal }.

Record YXmlEvent := {
  ev_target : list nat;
  ev_delta : list YDelta;
  ev_keys : list (string * YKeyChange) }.

Definition retainOnly (n : nat) : YDelta :=
  {| d_retain := Some n; d_insert := None; d_delete := None; d_attributes := None |}.

(** A delta skips the [n] items before the change with one [retain] entry,
    and with none when the change is at the start. *)
Definition skip (n : nat) : list YDelta :=
  match n with
  | 0 => []
  | S _ => [retainOnly n]
  end.

Definition insertDelta (index : nat) (content : list Node) : list YDelta :=
  skip index ++ [{| d_retain := None; d_insert := Some (InsNodes content);
                    d_delete := None; d_attributes := None |}].

Definition deleteDelta (index length : nat) : list YDelta :=
  skip index ++ [{| d_retain := None; d_insert := None;
                    d_delete := Some length; d_attributes := None |}].

(** ** Failure and state *)

Inductive Outcome (A : Type) : Type :=
| Done (a : A)
| Throw (msg : string).
Arguments Done {A} a.
Arguments Throw {A} msg.

(** The message of a failure. *)
Definition thrown {A} (o : Outcome A) : option string :=
  match o with
  | Done _ => None
  | Throw msg => Some msg
  end.

#[export] Instance Outcome_ret : MRet Outcome := @Done.
#[export] Instance Outcome_bind : MBind Outcome := λ A B f m,
  match m with
  | Done a => f a
  | Throw msg => Throw msg
  end.

(** The replication engine, as far as the layer calls into it without
    looking inside. *)
Class Engine := {
  (** the state of [Y.UndoManager] *)
  History : Type;
  (** the value of the [n]-th call of [uuid()] *)
  uuid : nat → string;
  (** [text.insert(index, text, attributes)], [text.format(from, length,
      attributes)] and [text.delete(index, length)]: the new content and
      the delta of the event, or the engine's own failure *)
  ytext_insert : list Span → nat → string → JsVal → Outcome (list Span * list YDelta);
  ytext_format : list Span → nat → nat → JsVal → Outcome (list Span * list YDelta);
  ytext_delete : list Span → nat → nat → Outcome (list Span * list YDelta);
  (** the manager sees every transaction on the root: the tree before and
      after it *)
  um_track : History → Node → Node → History;
  (** [undo()] and [redo()]: the new tree and the events of the transaction *)
  um_undo : History → Node → History * Node * list YXmlEvent;
  um_redo : History → Node → History * Node * list YXmlEvent }.

Section Document.
Context `{Engine}.

(** The fields of the class, the count of identifiers drawn so far, and
    what [notifyChanges] was called with, oldest first. *)
Record ServerXmlDocument := {
  y : Node;
  undoManager : History;
  drawn : nat;
  notified : list ChangeNotification }.

Definition M (A : Type) : Type := ServerXmlDocument → Outcome A * ServerXmlDocument.

#[export] Instance M_ret : MRet M := λ A a s, (Done a, s).
#[export] Instance M_bind : MBind M := λ A B f m s,
  match m s with
  | (Done a, s') => f a s'
  | (Throw msg, s') => (Throw msg, s')
  end.

Definition throw {A} (msg : string) : M A := λ s, (Throw msg, s).

Definition lift {A} (o : Outcome A) : M A := λ s, (o, s).

Definition getY : M Node := λ s, (Done (y s), s).

(** [for (const x of l) body(x)] *)
Fixpoint forEach {A} (l : list A) (body : A → M unit) : M unit :=
  match l with
  | [] => mret tt
  | x :: l' => body x ;; forEach l' body
  end.

(** [uuid()] *)
Definition nextUuid : M JsVal := λ s,
  (Done (JStr (uuid (drawn s))),
   {| y := y s; undoManager := undoManager s; drawn := S (drawn s);
      notified := notified s |}).

(** [notifyChanges(message)] *)
Definition notifyChanges (message : ChangeNotification) : M unit := λ s,
  (Done tt,
   {| y := y s; undoManager := undoManager s; drawn := drawn s;
      notified := notified s ++ [message] |}).

(** ** The change observer (constructor, lines 125-217) *)

Definition numTruthy (n : option nat) : bool :=
  match n with
  | Some (S _) => true
  | _ => false
  end.

Definition insertTruthy (i : option YInsert) : bool :=
  match i with
  | Some (InsNodes _) => true
  | Some (InsText s) => negb (String.eqb s "")
  | None => false
  end.

(** [(delta.insert instanceof Array ? delta.insert : [delta.insert])
    .map(i => this.serialize(i))]: a value that is not an array is a lone
    item, and [serialize] throws on an item that is no node. *)
Definition serializeInserted (i : YInsert) : Outcome (list JsVal) :=
  match i with
  | InsNodes nodes => Done (serialize <$> nodes)
  | InsText s => Throw ("Unexpected node type " +:+ s)
  end.

(** Lines 145-161: what one entry of the delta pushes onto
    [message.elements], and the loop over the entries. *)
Definition elementDelta (delta : YDelta) : Outcome (list ChangeNotificationElements) :=
  if insertTruthy (d_insert delta) then
    match d_insert delta with
    | Some i =>
        inserted ← serializeInserted i;
        Done [{| cne_retain := d_retain delta; cne_insert := Some inserted;
                 cne_delete := None |}]
    | None => Done []
    end
  else if numTruthy (d_delete delta) then
    Done [{| cne_retain := d_retain delta; cne_insert := None;
             cne_delete := d_delete delta |}]
  else if numTruthy (d_retain delta) then
    Done [{| cne_retain := d_retain delta; cne_insert := None; cne_delete := None |}]
  else Done [].

Fixpoint elementDeltas (deltas : list YDelta) : Outcome (list ChangeNotificationElements) :=
  match deltas with
  | [] => Done []
  | delta :: rest =>
      pushed ← elementDelta delta;
      more ← elementDeltas rest;
      Done (pushed ++ more)
  end.

(** Lines 163-173: [changes.keys.forEach((change, key) => ...)], pushing
    onto [message.attributes]. *)
Fixpoint keyChanges (target : Node) (keys : list (string * YKeyChange))
    (acc : ChangeNotificationAttributes) : ChangeNotificationAttributes :=
  match keys with
  | [] => acc
  | (key, change) :: rest =>
      keyChanges target rest
        match action change with
        | Add | Update =>
            {| attr_set := attr_set acc ++ [{| name := key; value := getAttribute target key |}];
               attr_delete := attr_delete acc |}
        | Delete =>
            {| attr_set := attr_set acc; attr_delete := attr_delete acc ++ [key] |}
        end
  end.

(** What one key of [changes.keys] adds to each list. *)
Definition setEntry (target : Node) (kc : string * YKeyChange)
    : option ChangeNotificationAttributesSet :=
  match action kc.2 with
  | Delete => None
  | _ => Some {| name := kc.1; value := getAttribute target kc.1 |}
  end.

Definition deleteEntry (kc : string * YKeyChange) : option string :=
  match action kc.2 with
  | Delete => Some kc.1
  | _ => None
  end.

(** Lines 193-210. *)
Fixpoint textDeltas (deltas : list YDelta) : list ChangeNotificationText :=
  match deltas with
  | [] => []
  | delta :: rest =>
      (if insertTruthy (d_insert delta) then
         [{| cnt_retain := d_retain delta; cnt_insert := d_insert delta;
             cnt_delete := None; cnt_attributes := None |}]
       else if numTruthy (d_delete delta) then
         [{| cnt_retain := d_retain delta; cnt_insert := None;
             cnt_delete := d_delete delta; cnt_attributes := None |}]
       else if numTruthy (d_retain delta) then
         [{| cnt_retain := d_retain delta; cnt_insert := None;
             cnt_delete := None; cnt_attributes := None |}]
       else [])
      ++ textDeltas rest
  end.

Fixpoint nodeAt (path : list nat) (n : Node) : option Node :=
  match path with
  | [] => Some n
  | i :: rest =>
      match n with
      | XmlElement _ _ cs => c ← cs !! i; nodeAt rest c
      | XmlText _ => None
      end
  end.

Definition noAttributes : ChangeNotificationAttributes :=
  {| attr_set := []; attr_delete := [] |}.

(** [parent?.getAttribute("$id") ?? undefined]; the root has no parent. *)
Definition parentID (doc : Node) (path : list nat) : JsVal :=
  match path with
  | [] => JUndefined
  | _ :: _ =>
      match nodeAt (removelast path) doc with
      | Some parent =>
          if nullish (getAttribute parent "$id") then JUndefined
          else getAttribute parent "$id"
      | None => JUndefined
      end
  end.

(** The message built for one event; an event whose target is not in the
    tree takes the final [else]. *)
Definition translate (doc : Node) (yxmlEvent : YXmlEvent) : Outcome ChangeNotification :=
  match nodeAt (ev_target yxmlEvent) doc with
  | Some (XmlElement nm a cs) =>
      els ← elementDeltas (ev_delta yxmlEvent);
      Done {| root := bool_decide (ev_target yxmlEvent = []);
              target := getAttribute (XmlElement nm a cs) "$id";
              elements := els;
              attributes := keyChanges (XmlElement nm a cs) (ev_keys yxmlEvent) noAttributes;
              text := [] |}
  | Some (XmlText _) =>
      Done {| root := false;
              target := parentID doc (ev_target yxmlEvent);
              elements := [];
              attributes := noAttributes;
              text := textDeltas (ev_delta yxmlEvent) |}
  | None => Throw "Unexpected target type"
  end.

(** The callback given to [this._y.observeDeep]. *)
Definition observeDeep (yxmlEvents : list YXmlEvent) : M unit :=
  forEach yxmlEvents (λ yxmlEvent,
    doc ← getY;
    message ← lift (translate doc yxmlEvent);
    notifyChanges message).

(** ** References into the tree

    A JavaScript reference to a node of the document is the node's position
    under the root: [Attached path].  Object identity is position, and the
    parent of a node is the node one step up.  [Deleted nodeName] is a
    reference kept to an element after it was removed from its parent. *)

Inductive Ref : Type :=
| Attached (path : list nat)
| Deleted (nodeName : JsVal).

Fixpoint updateAt (path : list nat) (n' : Node) (n : Node) : Node :=
  match path with
  | [] => n'
  | i :: rest =>
      match n with
      | XmlElement nm a cs => XmlElement nm a (alter (updateAt rest n') i cs)
      | XmlText c => XmlText c
      end
  end.

(** Modelled from the spec: a node destroyed by [delete] is out of the tree
    (section 3, lifecycle).  A reference kept to it reads as an element of
    that name with nothing in it, and a write through it reaches nothing
    in the document. *)
Definition deref (doc : Node) (r : Ref) : option Node :=
  match r with
  | Attached path => nodeAt path doc
  | Deleted nm => Some (XmlElement nm ∅ [])
  end.

Definition typeError : string := "TypeError".

Definition lengthExceeded : string := "Length exceeded!".

(** Reading through a reference.  The references the applier holds always
    point at a node; the failure is for the others. *)
Definition read (r : Ref) : M Node := λ s,
  match deref (y s) r with
  | Some n => (Done n, s)
  | None => (Throw typeError, s)
  end.

(** Modelled from the spec: the engine's transaction (section 6,
    [mutate] and [observeDeep]).  It replaces the node, lets the undo
    manager see the change and calls the observer synchronously with the
    event of the mutation, once per primitive call. *)
Definition commit (r : Ref) (n' : Node) (events : list nat → list YXmlEvent) : M unit :=
  match r with
  | Attached path => λ s,
      observeDeep (events path)
        {| y := updateAt path n' (y s);
           undoManager := um_track (undoManager s) (y s) (updateAt path n' (y s));
           drawn := drawn s;
           notified := notified s |}
  | Deleted _ => mret tt
  end.

Definition insertAt (index : nat) (content cs : list Node) : list Node :=
  take index cs ++ content ++ drop index cs.

(** [element.insert(index, content)] on an element that is not in a
    document yet. *)
Definition insertInto (index : nat) (content : list Node) (node : Node) : Node :=
  match node with
  | XmlElement nm a cs => XmlElement nm a (insertAt index content cs)
  | XmlText c => XmlText c
  end.

Definition removeRange (index length : nat) (cs : list Node) : list Node :=
  take index cs ++ drop (index + length) cs.

(** Modelled from the spec: the engine primitive [insertChild(parent,
    index, nodes)] of section 6, [element.insert(index, content)]; a
    position past the end is the engine's failure. *)
Definition y_insert (element : Ref) (index : nat) (content : list Node) : M unit :=
  node ← read element;
  match node with
  | XmlElement nm a cs =>
      if decide (index ≤ length cs) then
        commit element (XmlElement nm a (insertAt index content cs))
          (λ path, [{| ev_target := path; ev_delta := insertDelta index content;
                       ev_keys := [] |}])
      else throw lengthExceeded
  | XmlText _ => throw typeError
  end.

(** [element.insertAfter(ref, content)], with the child [ref] given by its
    position: the content goes immediately after it. *)
Definition y_insertAfter (element : Ref) (ref : nat) (content : list Node) : M unit :=
  y_insert element (S ref) content.

(** [element.push(content)] *)
Definition y_push (element : Ref) (content : list Node) : M unit :=
  node ← read element;
  y_insert element (length (childrenOf node)) content.

(** Modelled from the spec: the engine primitive [deleteChildren(parent,
    index, count)] of section 6, [element.delete(index, length)]; a range
    that runs past the end is the engine's failure. *)
Definition y_delete (element : Ref) (index length : nat) : M unit :=
  node ← read element;
  match node with
  | XmlElement nm a cs =>
      if decide (index + length ≤ List.length cs) then
        commit element (XmlElement nm a (removeRange index length cs))
          (λ path, [{| ev_target := path; ev_delta := deleteDelta index length;
                       ev_keys := [] |}])
      else throw lengthExceeded
  | XmlText _ => throw typeError
  end.

Definition setAttr (k : string) (v : JsVal) (node : Node) : Node :=
  match node with
  | XmlElement nm a cs => XmlElement nm (<[k := v]> a) cs
  | XmlText c => XmlText c
  end.

(** Modelled from the spec: the engine primitive [setAttribute(elem, name,
    value)] of section 6; the event names the key as added or updated and
    carries the value it had. *)
Definition y_setAttribute (element : Ref) (k : string) (v : JsVal) : M unit :=
  node ← read element;
  match node with
  | XmlElement nm a cs =>
      commit element (XmlElement nm (<[k := v]> a) cs)
        (λ path, [{| ev_target := path; ev_delta := [];
                     ev_keys := [(k, {| action := match a !! k with Some _ => Update | None => Add end;
                                        oldValue := default JUndefined (a !! k) |})] |}])
  | XmlText _ => throw typeError
  end.

(** Modelled from the spec: the engine primitive [deleteAttribute(elem,
    name)] of section 6. *)
Definition y_removeAttribute (element : Ref) (k : string) : M unit :=
  node ← read element;
  match node with
  | XmlElement nm a cs =>
      commit element (XmlElement nm (delete k a) cs)
        (λ path, [{| ev_target := path; ev_delta := [];
                     ev_keys := match a !! k with
                                | Some old => [(k, {| action := Delete; oldValue := old |})]
                                | None => []
                                end |}])
  | XmlText _ => throw typeError
  end.

(** A text primitive of the engine, run on the text run [xmlText]. *)
Definition y_text (xmlText : Ref)
    (op : list Span → Outcome (list Span * list YDelta)) : M unit :=
  node ← read xmlText;
  match node with
  | XmlText content =>
      r ← lift (op content);
      commit xmlText (XmlText r.1)
        (λ path, [{| ev_target := path; ev_delta := r.2; ev_keys := [] |}])
  | XmlElement _ _ _ => throw typeError
  end.

(** ** doUndo, doRedo (lines 229-235) *)

Definition doUndo : M unit := λ s,
  let r := um_undo (undoManager s) (y s) in
  observeDeep r.2
    {| y := r.1.2; undoManager := r.1.1; drawn := drawn s; notified := notified s |}.

Definition doRedo : M unit := λ s,
  let r := um_redo (undoManager s) (y s) in
  observeDeep r.2
    {| y := r.1.2; undoManager := r.1.1; drawn := drawn s; notified := notified s |}.

(** ** createNodes (lines 301-340)

    The recursion follows [child.element.children], a value read out of the
    spec by property name, so it is counted down on [fuel]; [createNodes]
    below starts it with the size of the spec, which is always enough
    ([createNodesFuel_enough]), and more changes nothing
    ([createNodesFuel_stable]). *)

Fixpoint mapM {A B} (f : A → M B) (l : list A) : M (list B) :=
  match l with
  | [] => mret []
  | x :: l' => b ← f x; bs ← mapM f l'; mret (b :: bs)
  end.

(** The body of the loop, one [child]; [recurse] is [this.createNodes]. *)
Definition createNode (recurse : JsVal → M (list Node)) (child : JsVal) : M Node :=
  if nullish child then throw typeError
  else if truthy (jsget child "text") then
    let text := XmlText [] in
    mret (if truthy (jsget (jsget child "text") "delta")
          then XmlText (applyDeltaFresh (jsget (jsget child "text") "delta"))
          else text)
  else if truthy (jsget child "element") then
    let spec := jsget child "element" in
    let element := newXmlElement (jsget spec "name") in
    let attributes := jsget spec "attributes" in
    id ← (if nullish attributes then nextUuid
          else if nullish (jsget attributes "id") then nextUuid
          else mret (jsget attributes "id"));
    let element := setAttr "$id" id element in
    let element :=
      if truthy attributes
      then foldl (λ element k, setAttr k (jsget attributes k) element) element (jskeys attributes)
      else element in
    if truthy (jsget spec "children") then
      nodes ← recurse (jsget spec "children");
      mret (insertInto 0 nodes element)
    else mret element
  else throw "Unexpected XML data item (not text or element).".

Definition outOfFuel : string := "createNodes: recursion budget exhausted".

Fixpoint createNodesFuel (fuel : nat) (children : JsVal) : M (list Node) :=
  match fuel with
  | 0 => throw outOfFuel
  | S fuel' =>
      match jsiter children with
      | Some items => mapM (createNode (createNodesFuel fuel')) items
      | None => throw typeError
      end
  end.

Fixpoint jsize (v : JsVal) : nat :=
  match v with
  | JArr items => S (list_sum (List.map jsize items))
  | JObj fields => S (list_sum (List.map (λ kv, jsize kv.2) fields))
  | _ => 1
  end.

Definition createNodes (children : JsVal) : M (list Node) :=
  createNodesFuel (jsize children) children.

(** ** The change applier *)

(** The interface [AppliedChange] (lines 70-101).  An optional field that
    is left out is [None]; a field typed [any] or [Record<string, any>] is
    a JavaScript value, [undefined] when left out. *)

Record InsertChildren := {
  ic_after : option string;
  ic_index : option nat;
  ic_children : JsVal }.

Record DeleteChildren := {
  dc_after : option string;
  dc_index : option nat;
  dc_length : nat }.

Record InsertText := { it_index : nat; it_text : string; it_attributes : JsVal }.

Record FormatText := { ft_from : nat; ft_length : nat; ft_attributes : JsVal }.

Record DeleteText := { dt_index : nat; dt_length : nat }.

Record AppliedChange := {
  nodeID : option string;
  c_delete : bool;
  c_insertChildren : option InsertChildren;
  c_deleteChildren : option DeleteChildren;
  c_removeAttributes : option (list string);
  c_setAttributes : JsVal;
  c_insertText : option InsertText;
  c_formatText : option FormatText;
  c_deleteText : option DeleteText;
  c_undo : bool;
  c_redo : bool }.

(** [if (s)] for an optional string: there, and not empty. *)
Definition given (s : option string) : bool :=
  match s with
  | Some t => negb (String.eqb t "")
  | None => false
  end.

Definition strOf (s : option string) : string := default "undefined" s.

(** *** doDelete (lines 277-296)

    The loop walks the parent's children for the one that is [element]
    itself, counting in [i]. *)
Fixpoint indexOfSelf (self : nat) (siblings : list Node) (i : nat) : option nat :=
  match siblings with
  | [] => None
  | cur :: rest => if decide (i = self) then Some i else indexOfSelf self rest (S i)
  end.

(** The reference that comes back is the one [elementOrText] holds from
    then on: the same node, now removed. *)
Definition doDelete (element : Ref) : M Ref :=
  match element with
  | Attached [] => throw "Cannot delete top-level element."
  | Attached (p :: ath) =>
      let path := p :: ath in
      parent ← read (Attached (removelast path));
      node ← read element;
      match indexOfSelf (List.last path 0) (childrenOf parent) 0 with
      | Some i =>
          y_delete (Attached (removelast path)) i 1;;
          mret (Deleted (nodeNameOf node))
      | None => throw "Element was not found among parent's children."
      end
  | Deleted _ => throw "Element was not found among parent's children."
  end.

(** *** doInsertChildren (lines 346-384) *)

(** [e instanceof Y.XmlElement] and [e.getAttribute("$id") === after] *)
Definition matchesAfter (after : string) (e : Node) : bool :=
  isElement e && strictEqStr (getAttribute e "$id") after.

(** The loop of lines 360-367 and 405-413: the first child that is an
    element whose [$id] is [after], by its position. *)
Fixpoint findAfter (after : string) (siblings : list Node) (i : nat) : option nat :=
  match siblings with
  | [] => None
  | e :: rest => if matchesAfter after e then Some i else findAfter after rest (S i)
  end.

Definition doInsertChildren (element : Ref) (args : InsertChildren) : M unit :=
  node ← read element;
  afterElement ←
    (if given (ic_after args) then
       match findAfter (strOf (ic_after args)) (childrenOf node) 0 with
       | Some e => mret (Some e)
       | None => throw ("Unable to find child element to insert after: "
                        +:+ strOf (ic_after args))
       end
     else mret None);
  match afterElement with
  | Some e =>
      nodes ← createNodes (ic_children args);
      y_insertAfter element e nodes
  | None =>
      match ic_index args with
      | Some index =>
          nodes ← createNodes (ic_children args);
          y_insert element index nodes
      | None =>
          nodes ← createNodes (ic_children args);
          y_push element nodes
      end
  end.

(** *** doDeleteChildren (lines 390-424) *)

Definition doDeleteChildren (element : Ref) (args : DeleteChildren) : M unit :=
  node ← read element;
  if given (dc_after args) then
    match findAfter (strOf (dc_after args)) (childrenOf node) 0 with
    | Some i => y_delete element i (dc_length args)
    | None => throw ("Unable to find child element to insert after: "
                     +:+ strOf (dc_after args))
    end
  else
    match dc_index args with
    | None => throw "No 'index' specified for deleteChildren."
    | Some index => y_delete element index (dc_length args)
    end.

(** *** doRemoveAttributes, doSetAttributes (lines 429-445) *)

Definition doRemoveAttributes (element : Ref) (attributes : list string) : M unit :=
  forEach attributes (λ k, y_removeAttribute element k).

Definition doSetAttributes (element : Ref) (attributes : JsVal) : M unit :=
  forEach (jskeys attributes) (λ k, y_setAttribute element k (jsget attributes k)).

(** *** findNode (lines 450-466) *)

(** The loop over the children (lines 458-463), [find] being the recursive
    call; a child found at position [i] is reached by [i] and then the way
    [find] gives. *)
Definition scanChildren (find : Node → option (list nat))
    : list Node → nat → option (list nat) :=
  fix scan (siblings : list Node) (i : nat) : option (list nat) :=
    match siblings with
    | [] => None
    | e :: rest =>
        match find e with
        | Some child => Some (i :: child)
        | None => scan rest (S i)
        end
    end.

Fixpoint findNode (nodeID : option string) (root : Node) : option (list nat) :=
  if negb (given nodeID) then Some []
  else
    match root with
    | XmlElement _ _ cs =>
        if strictEqStr (getAttribute root "$id") (strOf nodeID) then Some []
        else scanChildren (findNode nodeID) cs 0
    | XmlText _ => None
    end.

(** *** doInsertText, doFormatText, doDeleteText (lines 471-508)

    [element.firstChild as Y.XmlText] is a cast, not a check: a missing
    first child fails on the method call, and a first child that is an
    element has [delete] but neither text [insert] nor [format]. *)

Definition firstChild (element : Ref) : Ref :=
  match element with
  | Attached path => Attached (path ++ [0])
  | Deleted nm => Deleted nm
  end.

Definition doInsertText (element : Ref) (args : InsertText) : M unit :=
  node ← read element;
  if negb (strictEqStr (nodeNameOf node) "text") then
    throw "Can only insert text in a text node."
  else
    match childrenOf node with
    | XmlText _ :: _ =>
        y_text (firstChild element)
          (λ content, ytext_insert content (it_index args) (it_text args) (it_attributes args))
    | _ => throw typeError
    end.

Definition doFormatText (element : Ref) (args : FormatText) : M unit :=
  node ← read element;
  if negb (strictEqStr (nodeNameOf node) "text") then
    throw "Can only format text in a text node."
  else
    match childrenOf node with
    | XmlText _ :: _ =>
        y_text (firstChild element)
          (λ content, ytext_format content (ft_from args) (ft_length args)
                        (if truthy (ft_attributes args) then ft_attributes args else JObj []))
    | _ => throw typeError
    end.

Definition doDeleteText (element : Ref) (args : DeleteText) : M unit :=
  node ← read element;
  if negb (strictEqStr (nodeNameOf node) "text") then
    throw "Can only delete text in a text node."
  else
    match childrenOf node with
    | XmlText _ :: _ =>
        y_text (firstChild element)
          (λ content, ytext_delete content (dt_index args) (dt_length args))
    | XmlElement _ _ _ :: _ =>
        y_delete (firstChild element) (dt_index args) (dt_length args)
    | [] => throw typeError
    end.

(** *** applyChanges (lines 513-592) *)

(** [if (!(elementOrText instanceof Y.XmlElement)) throw new Error(msg)] *)
Definition requireElement (elementOrText : Ref) (msg : string) : M unit :=
  node ← read elementOrText;
  if isElement node then mret tt else throw msg.

Definition whenSome {A} (field : option A) (act : A → M unit) : M unit :=
  match field with
  | Some a => act a
  | None => mret tt
  end.

(** The target of a command (line 516): the node with that [$id], the root
    when no [nodeID] is given. *)
Definition resolve (change : AppliedChange) (doc : Node) : option (list nat) :=
  if given (nodeID change) then findNode (nodeID change) doc else Some [].

(** The sub-actions of one [change] on its target, in the order of lines
    522-590. *)
Definition subActions (change : AppliedChange) (path : list nat) : M unit :=
  elementOrText ←
    (if c_delete change then doDelete (Attached path) else mret (Attached path));
  whenSome (c_insertChildren change) (λ args,
    requireElement elementOrText "Cannot insert children into a text node.";;
    doInsertChildren elementOrText args);;
  whenSome (c_deleteChildren change) (λ args,
    requireElement elementOrText "Cannot delete children of a text node.";;
    doDeleteChildren elementOrText args);;
  whenSome (c_removeAttributes change) (λ args,
    requireElement elementOrText "Cannot remove attributes from a text node.";;
    doRemoveAttributes elementOrText args);;
  (if truthy (c_setAttributes change) then
     requireElement elementOrText "Cannot set attributes on a text node.";;
     doSetAttributes elementOrText (c_setAttributes change)
   else mret tt);;
  whenSome (c_insertText change) (λ args,
    requireElement elementOrText "Node is not a text element.";;
    doInsertText elementOrText args);;
  whenSome (c_formatText change) (λ args,
    requireElement elementOrText "Node is not a text element.";;
    doFormatText elementOrText args);;
  whenSome (c_deleteText change) (λ args,
    requireElement elementOrText "Node is not a text element.";;
    doDeleteText elementOrText args);;
  (if c_undo change then doUndo else mret tt);;
  (if c_redo change then doRedo else mret tt).

(** The body of the loop, one [change]. *)
Definition applyChange (change : AppliedChange) : M unit :=
  doc ← getY;
  match resolve change doc with
  | None => throw ("Element was not found for nodeID " +:+ strOf (nodeID change))
  | Some path => subActions change path
  end.

Definition applyChanges (changes : list AppliedChange) : M unit :=
  forEach changes applyChange.

(** ** What the specification says of an insertion

    The definitions below follow the specification's words; the properties
    compare them with the code above. *)

(** Section 4.4, item 4: after the child [after] resolves to, else at
    [index], else at the end; the failure when [after] does not resolve. *)
Definition insertionPoint (args : InsertChildren) (cs : list Node) : string + nat :=
  if given (ic_after args) then
    match findAfter (strOf (ic_after args)) cs 0 with
    | Some e => inr (S e)
    | None => inl ("Unable to find child element to insert after: "
                   +:+ strOf (ic_after args))
    end
  else
    match ic_index args with
    | Some index => inr index
    | None => inr (length cs)
    end.

(** The [retain] entry in front of a change at position [n]; there is none
    at position 0. *)
Definition retained (n : nat) : list ChangeNotificationElements :=
  match n with
  | 0 => []
  | S _ => [{| cne_retain := Some n; cne_insert := None; cne_delete := None |}]
  end.

(** Section 8, observer/applier duality: the notification for [nodes]
    inserted at position [index] of the element at [path], whose attribute
    map is [a]. *)
Definition insertionNotice (path : list nat) (a : gmap string JsVal) (index : nat)
    (nodes : list Node) : ChangeNotification :=
  {| root := bool_decide (path = []);
     target := default JUndefined (a !! "$id");
     elements := retained index
                 ++ [{| cne_retain := None; cne_insert := Some (serialize <$> nodes);
                        cne_delete := None |}];
     attributes := noAttributes;
     text := [] |}.

(** A command that only inserts children. *)
Definition insertOnly (id : option string) (args : InsertChildren) : AppliedChange :=
  {| nodeID := id; c_delete := false; c_insertChildren := Some args;
     c_deleteChildren := None; c_removeAttributes := None; c_setAttributes := JUndefined;
     c_insertText := None; c_formatText := None; c_deleteText := None;
     c_undo := false; c_redo := false |}.

(** The state after a transaction on the node at [path] that sent
    [message]. *)
Definition committed (s : ServerXmlDocument) (path : list nat) (n' : Node)
    (message : ChangeNotification) : ServerXmlDocument :=
  {| y := updateAt path n' (y s);
     undoManager := um_track (undoManager s) (y s) (updateAt path n' (y s));
     drawn := drawn s;
     notified := notified s ++ [message] |}.

(** [s1] is [s] but for identifiers drawn in between. *)
Definition sameDocument (s s1 : ServerXmlDocument) : Prop :=
  y s1 = y s ∧ undoManager s1 = undoManager s ∧ notified s1 = notified s
  ∧ drawn s ≤ drawn s1.

(** ** What createNode makes of an element spec

    The pieces of the element built from a spec whose attribute bag is
    [bag], when [n] identifiers were drawn before. *)

(** [child.element.attributes?.id ?? uuid()] *)
Definition chosenId (bag : JsVal) (n : nat) : JsVal :=
  if nullish (jsget bag "id") then JStr (uuid n) else jsget bag "id".

(** The attribute map after the loop over [Object.keys(bag)]. *)
Definition setKeys (bag : JsVal) (m : gmap string JsVal) : gmap string JsVal :=
  foldl (λ m k, <[k := jsget bag k]> m) m (jskeys bag).

Definition builtAttributes (bag : JsVal) (n : nat) : gmap string JsVal :=
  setKeys bag {["$id" := chosenId bag n]}.

(** Section 3, invariants: the element has an identifier, and it is not
    empty. *)
Definition hasNonEmptyId (node : Node) : Prop :=
  ∃ id, getAttribute node "$id" = JStr id ∧ id ≠ "".

(** Sections 3 and 4.5: every element built from the specs [children]
    carries a non-empty identifier. *)
Definition buildsIdentified (children : JsVal) (s : ServerXmlDocument) : Prop :=
  ∀ nodes s', createNodes children s = (Done nodes, s') →
    Forall (λ node, isElement node = true → hasNonEmptyId node) nodes.

(** The state once the identifier is settled. *)
Definition afterId (bag : JsVal) (s : ServerXmlDocument) : ServerXmlDocument :=
  if nullish (jsget bag "id")
  then {| y := y s; undoManager := undoManager s; drawn := S (drawn s);
          notified := notified s |}
  else s.

(** Every element of the tree carries a [$id] attribute. *)
Fixpoint identified (node : Node) : bool :=
  match node with
  | XmlElement _ a cs => bool_decide (is_Some (a !! "$id")) && forallb identified cs
  | XmlText _ => true
  end.

(** The tree with every element's tag name replaced by the one an element
    gets when it is made without a name. *)
Fixpoint retag (node : Node) : Node :=
  match node with
  | XmlElement _ a cs => XmlElement (JStr "UNDEFINED") a (List.map retag cs)
  | XmlText c => XmlText c
  end.

(** Section 8, round trip: building from the serialized form of [T] gives
    [T] back. *)
Definition roundTrips (T : Node) : Prop :=
  ∀ s, ∃ s', createNodes (JArr [serialize T]) s = (Done [T], s').


End Document.

(** ** A sample engine

    An instance of [Engine] to run the layer on: identifiers are numbered,
    a text run is edited span by span, and the undo manager keeps the trees
    it has seen. *)

Module SampleEngine.

Definition textLength (content : list Span) : nat :=
  list_sum ((λ sp, String.length (sp_insert sp)) <$> content).

Fixpoint takeChars (n : nat) (content : list Span) : list Span :=
  match content with
  | [] => []
  | sp :: rest =>
      if decide (n = 0) then []
      else if decide (String.length (sp_insert sp) ≤ n)
      then sp :: takeChars (n - String.length (sp_insert sp)) rest
      else [{| sp_insert := String.substring 0 n (sp_insert sp);
               sp_attributes := sp_attributes sp |}]
  end.

Fixpoint dropChars (n : nat) (content : list Span) : list Span :=
  match content with
  | [] => []
  | sp :: rest =>
      if decide (String.length (sp_insert sp) ≤ n)
      then dropChars (n - String.length (sp_insert sp)) rest
      else {| sp_insert := String.substring n (String.length (sp_insert sp) - n) (sp_insert sp);
              sp_attributes := sp_attributes sp |} :: rest
  end.

Definition formatting (attributes : JsVal) : gmap string JsVal :=
  if truthy attributes then setAll ∅ (jsentries attributes) else ∅.

Definition textInsert (content : list Span) (index : nat) (text : string) (attributes : JsVal)
    : Outcome (list Span * list YDelta) :=
  if decide (index ≤ textLength content) then
    Done (takeChars index content
            ++ [{| sp_insert := text; sp_attributes := formatting attributes |}]
            ++ dropChars index content,
          skip index ++ [{| d_retain := None; d_insert := Some (InsText text);
                            d_delete := None;
                            d_attributes := if truthy attributes
                                            then Some (formatting attributes) else None |}])
  else Throw lengthExceeded.

Definition textFormat (content : list Span) (from length : nat) (attributes : JsVal)
    : Outcome (list Span * list YDelta) :=
  if decide (from + length ≤ textLength content) then
    Done (takeChars from content
            ++ ((λ sp, {| sp_insert := sp_insert sp;
                          sp_attributes := setAll (sp_attributes sp) (jsentries attributes) |})
                  <$> takeChars length (dropChars from content))
            ++ dropChars (from + length) content,
          skip from ++ [{| d_retain := Some length; d_insert := None; d_delete := None;
                           d_attributes := Some (formatting attributes) |}])
  else Throw lengthExceeded.

Definition textDelete (content : list Span) (index length : nat)
    : Outcome (list Span * list YDelta) :=
  if decide (index + length ≤ textLength content) then
    Done (takeChars index content ++ dropChars (index + length) content,
          skip index ++ [{| d_retain := None; d_insert := None; d_delete := Some length;
                            d_attributes := None |}])
  else Throw lengthExceeded.

Definition undoLast (history : list Node) (doc : Node) : list Node * Node * list YXmlEvent :=
  match history with
  | [] => ([], doc, [])
  | before :: older => (older, before, [])
  end.

#[export] Instance engine : Engine := {|
  History := list Node;
  uuid := λ n, "uuid-" +:+ pretty n;
  ytext_insert := textInsert;
  ytext_format := textFormat;
  ytext_delete := textDelete;
  um_track := λ history before after, before :: history;
  um_undo := undoLast;
  um_redo := λ history doc, (history, doc, []) |}.

(** [new ServerXmlDocument(doc, notifyChanges)] on a document whose root is
    [doc]. *)
Definition openDocument (doc : Node) : ServerXmlDocument :=
  {| y := doc; undoManager := []; drawn := 0; notified := [] |}.

End SampleEngine.

(** ** Sample documents and commands *)

Module Samples.
Import SampleEngine.

Definition para (id : string) : Node :=
  XmlElement (JStr "p") {["$id" := JStr id]} [].

(** A root with the identifier ["root-id"] and three paragraphs. *)
Definition threeParas : Node :=
  XmlElement (JStr "UNDEFINED") {["$id" := JStr "root-id"]} [para "a"; para "b"; para "c"].

(** A root whose only child is a text element holding "Hello World". *)
Definition helloWorld : Node :=
  XmlElement (JStr "UNDEFINED") {["$id" := JStr "root-id"]}
    [XmlElement (JStr "text") {["$id" := JStr "t1"]}
       [XmlText [{| sp_insert := "Hello World"; sp_attributes := ∅ |}]]].

Definition divSpec (id : JsVal) : JsVal :=
  JObj [("element", JObj [("name", JStr "div"); ("attributes", JObj [("id", id)])])].

(** The element [createNodes] builds from [divSpec (JStr id)]. *)
Definition divBuilt (id : string) : Node :=
  XmlElement (JStr "div") {["$id" := JStr id; "id" := JStr id]} [].

Definition deleteNode (id : option string) : AppliedChange :=
  {| nodeID := id; c_delete := true; c_insertChildren := None;
     c_deleteChildren := None; c_removeAttributes := None; c_setAttributes := JUndefined;
     c_insertText := None; c_formatText := None; c_deleteText := None;
     c_undo := false; c_redo := false |}.

Definition deleteChildrenOf (id : option string) (args : DeleteChildren) : AppliedChange :=
  {| nodeID := id; c_delete := false; c_insertChildren := None;
     c_deleteChildren := Some args; c_removeAttributes := None; c_setAttributes := JUndefined;
     c_insertText := None; c_formatText := None; c_deleteText := None;
     c_undo := false; c_redo := false |}.

(** [{after: "a", index: 0, children: [div c1]}] *)
Definition afterA : InsertChildren :=
  {| ic_after := Some "a"; ic_index := Some 0; ic_children := JArr [divSpec (JStr "c1")] |}.

(** [{after: "a", length: 1}] *)
Definition oneAfterA : DeleteChildren :=
  {| dc_after := Some "a"; dc_index := None; dc_length := 1 |}.

(** An event that reports [title] as updated and [lang] as deleted. *)
Definition keysEvent : YXmlEvent :=
  {| ev_target := [];
     ev_delta := [];
     ev_keys := [("title", {| action := Update; oldValue := JStr "old" |});
                 ("lang", {| action := Delete; oldValue := JStr "en" |})] |}.

Definition titled : Node :=
  XmlElement (JStr "UNDEFINED") {["$id" := JStr "root-id"; "title" := JStr "new"]} [].

(** The notification for [keysEvent] on [titled]. *)
Definition keysNotice : ChangeNotification :=
  {| root := true;
     target := JStr "root-id";
     elements := [];
     attributes := {| attr_set := [{| name := "title"; value := JStr "new" |}];
                      attr_delete := ["lang"] |};
     text := [] |}.

(** The documents and commands of the repository's tests
    ([server-xml-document.spec.ts]). *)

Definition emptyRoot : Node := XmlElement (JStr "UNDEFINED") ∅ [].

Definition rootOnly : Node := XmlElement (JStr "UNDEFINED") {["$id" := JStr "root-id"]} [].

Definition textUnderRoot (id : string) (content : list Span) : Node :=
  XmlElement (JStr "UNDEFINED") {["$id" := JStr "root-id"]}
    [XmlElement (JStr "text") {["$id" := JStr id]} [XmlText content]].

Definition insertMyChild : AppliedChange :=
  insertOnly (Some "root-id")
    {| ic_after := None; ic_index := Some 0;
       ic_children :=
         JArr [JObj [("element",
                      JObj [("name", JStr "my-child");
                            ("attributes", JObj [("title", JStr "ChildTitle");
                                                 ("id", JStr "child-id-123")]);
                            ("children", JArr [])])]] |}.

Definition insertTextAt (id : string) (index : nat) (text : string) : AppliedChange :=
  {| nodeID := Some id; c_delete := false; c_insertChildren := None;
     c_deleteChildren := None; c_removeAttributes := None; c_setAttributes := JUndefined;
     c_insertText := Some {| it_index := index; it_text := text;
                             it_attributes := JUndefined |};
     c_formatText := None; c_deleteText := None; c_undo := false; c_redo := false |}.

Definition formatTextAt (id : string) (from length : nat) (attributes : JsVal)
    : AppliedChange :=
  {| nodeID := Some id; c_delete := false; c_insertChildren := None;
     c_deleteChildren := None; c_removeAttributes := None; c_setAttributes := JUndefined;
     c_insertText := None;
     c_formatText := Some {| ft_from := from; ft_length := length;
                             ft_attributes := attributes |};
     c_deleteText := None; c_undo := false; c_redo := false |}.

Definition deleteTextAt (id : string) (index length : nat) : AppliedChange :=
  {| nodeID := Some id; c_delete := false; c_insertChildren := None;
     c_deleteChildren := None; c_removeAttributes := None; c_setAttributes := JUndefined;
     c_insertText := None; c_formatText := None;
     c_deleteText := Some {| dt_index := index; dt_length := length |};
     c_undo := false; c_redo := false |}.

End Samples.

(** ** The entry point ([src/unnamed/part_000])

    The helpers that carry engine updates as text, and the registry of
    documents. *)

(** *** uint8ArrayToBase64, base64ToUint8Array (lines 12-34)

    A [Uint8Array] is a list of bytes; a binary string, whose characters
    all have codes below 256, is a string of 8-bit characters.  [btoa] and
    [atob] belong to the platform: [atob] throws on text that is not
    base64. *)

Section Base64.
Variable btoa : string → string.
Variable atob : string → Outcome string.

Definition chunkSize : nat := N.to_nat 0x8000.

(** [String.fromCharCode(...bytes)] *)
Definition fromCharCodes (bytes : list Byte.byte) : string :=
  String.string_of_list_byte bytes.

(** [bytes.subarray(begin, end)] *)
Definition subarray (begin end_ : nat) (bytes : list Byte.byte) : list Byte.byte :=
  take (end_ - begin) (drop begin bytes).

(** The loop of lines 16-18, from index [i] on.  It advances by
    [chunkSize] each round, so [fuel] rounds are enough for [fuel] bytes
    ([chunkLoop_all]). *)
Fixpoint chunkLoop (fuel i : nat) (bytes : list Byte.byte) (binary : string) : string :=
  match fuel with
  | 0 => binary
  | S fuel' =>
      if decide (i < length bytes) then
        chunkLoop fuel' (i + chunkSize) bytes
          (binary +:+ fromCharCodes (subarray i (i + chunkSize) bytes))
      else binary
  end.

Definition uint8ArrayToBase64 (bytes : list Byte.byte) : string :=
  btoa (chunkLoop (length bytes) 0 bytes "").

(** [bytes[i] = binary.charCodeAt(i)] for every [i] below the length. *)
Definition charCodes (binary : string) : list Byte.byte :=
  Ascii.byte_of_ascii <$> String.list_ascii_of_string binary.

Definition base64ToUint8Array (base64 : string) : Outcome (list Byte.byte) :=
  binary ← atob base64;
  Done (charCodes binary).

End Base64.

(** *** The registry: applyChanges (lines 74-83), unregisterDocument
    (lines 208-215)

    [documents] maps an identifier to its document.  A [ClientProtocol]
    holds nothing but the [Y.Doc] it shares with the document of the same
    identifier, so [protocols] is the set of its keys. *)

Module Entrypoint.
Section Registry.
Context `{Engine}.

Record UpdatePayload := { documentID : string; changes : list AppliedChange }.

Record Registry := {
  documents : gmap string ServerXmlDocument;
  protocols : gset string }.

(** [server.applyChanges] works on the registered object itself: what it
    did before a throw stays in the registry. *)
Definition applyChanges (update : UpdatePayload) (r : Registry) : Outcome unit * Registry :=
  match documents r !! documentID update with
  | None =>
      (Throw ("cannot apply changes, document was not registered " +:+ documentID update), r)
  | Some server =>
      let result := applyChanges (changes update) server in
      (result.1, {| documents := <[documentID update := result.2]> (documents r);
                    protocols := protocols r |})
  end.

Definition unregisterDocument (id : string) (r : Registry) : Outcome unit * Registry :=
  match documents r !! id with
  | None => (Throw ("document was not registered " +:+ id), r)
  | Some _ =>
      (Done tt, {| documents := delete id (documents r);
                   protocols := protocols r ∖ {[id]} |})
  end.

End Registry.
End Entrypoint.

(** ** Order and occurrence in the tree *)

(** [p] comes no later than [q] in a depth-first walk that visits a node
    before its children, and the children from first to last. *)
Fixpoint precedes (p q : list nat) : Prop :=
  match p, q with
  | [], _ => True
  | _ :: _, [] => False
  | i :: p', j :: q' => i < j ∨ (i = j ∧ precedes p' q')
  end.

(** The node at [path] is an element whose [$id] is the string [id]. *)
Definition carriesAt (id : string) (doc : Node) (path : list nat) : Prop :=
  ∃ nm a cs, nodeAt path doc = Some (XmlElement nm a cs) ∧ a !! "$id" = Some (JStr id).

(** ** What the code sends and leaves

    The notifications and attribute maps the properties of the applier are
    stated with. *)

Section Notices.
Context `{Engine}.

(** The notification for [length] children removed at position [index] of
    the element at [path], whose attribute map is [a]; a removal of nothing
    leaves no [delete] entry. *)
Definition deletionNotice (path : list nat) (a : gmap string JsVal) (index length : nat)
    : ChangeNotification :=
  {| root := bool_decide (path = []);
     target := default JUndefined (a !! "$id");
     elements := retained index
                 ++ match length with
                    | 0 => []
                    | S _ => [{| cne_retain := None; cne_insert := None;
                                 cne_delete := Some length |}]
                    end;
     attributes := noAttributes;
     text := [] |}.

(** The notification for attribute [k] set to [v] on the element at [path],
    whose attribute map is [a] once [k] is set. *)
Definition attributeNotice (path : list nat) (a : gmap string JsVal) (k : string) (v : JsVal)
    : ChangeNotification :=
  {| root := bool_decide (path = []);
     target := default JUndefined (a !! "$id");
     elements := [];
     attributes := {| attr_set := [{| name := k; value := v |}]; attr_delete := [] |};
     text := [] |}.


(** The notifications of the loop of [doSetAttributes] over [keys], on an
    element at [path] whose attribute map is [a] when the loop starts: one
    for each key, in order. *)
Fixpoint setNotices (path : list nat) (bag : JsVal) (a : gmap string JsVal)
    (keys : list string) : list ChangeNotification :=
  match keys with
  | [] => []
  | k :: rest =>
      attributeNotice path (<[k := jsget bag k]> a) k (jsget bag k)
      :: setNotices path bag (<[k := jsget bag k]> a) rest
  end.

(** The attribute map after the loop of [doRemoveAttributes]. *)
Definition removeKeys (names : list string) (a : gmap string JsVal) : gmap string JsVal :=
  foldl (λ m k, delete k m) a names.

(** The state with [messages] sent. *)
Definition sending (s : ServerXmlDocument) (messages : list ChangeNotification)
    : ServerXmlDocument :=
  {| y := y s; undoManager := undoManager s; drawn := drawn s;
     notified := notified s ++ messages |}.

End Notices.

(** ** What a notification entry may look like *)

(** An entry of [elements] that reports one change: an insertion, or a
    removal of at least one child, or a skip of at least one. *)
Definition elementEntryOk (entry : ChangeNotificationElements) : Prop :=
  match cne_insert entry, cne_delete entry with
  | Some _, None => True
  | None, Some n => 0 < n
  | None, None => ∃ n, cne_retain entry = Some (S n)
  | Some _, Some _ => False
  end.

(** The same for an entry of [text]; an inserted string is not empty. *)
Definition textEntryOk (entry : ChangeNotificationText) : Prop :=
  match cnt_insert entry, cnt_delete entry with
  | Some i, None => i ≠ InsText ""
  | None, Some n => 0 < n
  | None, None => ∃ n, cnt_retain entry = Some (S n)
  | Some _, Some _ => False
  end.

(** ** Sample inputs for the properties of the applier and the entry point *)

Module SamplePlatform.

(** A base64 codec with padding (RFC 4648) for [btoa] and [atob]. *)

Definition alphabet : list Ascii.ascii :=
  String.list_ascii_of_string
    "ABCDEFGHIJKLMNOPQRSTUVWXYZabcdefghijklmnopqrstuvwxyz0123456789+/".

(** The character [=]. *)
Definition pad : Ascii.ascii := Ascii.ascii_of_N 61.

Definition digit (n : N) : Ascii.ascii := default pad (alphabet !! N.to_nat n).

Definition digitValue (c : Ascii.ascii) : option N :=
  (λ found, N.of_nat found.1) <$> list_find (λ d, d = c) alphabet.

Fixpoint encode (codes : list N) : list Ascii.ascii :=
  match codes with
  | [] => []
  | [a] => [digit (a / 4); digit (a mod 4 * 16); pad; pad]
  | [a; b] => [digit (a / 4); digit (a mod 4 * 16 + b / 16); digit (b mod 16 * 4); pad]
  | a :: b :: c :: rest =>
      digit (a / 4) :: digit (a mod 4 * 16 + b / 16) :: digit (b mod 16 * 4 + c / 64)
        :: digit (c mod 64) :: encode rest
  end%N.

Fixpoint decode (digits : list Ascii.ascii) : option (list N) :=
  match digits with
  | [] => Some []
  | c1 :: c2 :: c3 :: c4 :: rest =>
      a ← digitValue c1;
      b ← digitValue c2;
      if decide (c3 = pad) then
        if decide (c4 = pad ∧ rest = []) then Some [a * 4 + b / 16]%N else None
      else
        c ← digitValue c3;
        if decide (c4 = pad) then
          if decide (rest = []) then Some [a * 4 + b / 16; b mod 16 * 16 + c / 4]%N
          else None
        else
          d ← digitValue c4;
          tail ← decode rest;
          Some ((a * 4 + b / 16) :: (b mod 16 * 16 + c / 4) :: (c mod 4 * 64 + d) :: tail)%N
  | _ => None
  end.

Definition btoa (binary : string) : string :=
  String.string_of_list_ascii (encode (Ascii.N_of_ascii <$> String.list_ascii_of_string binary)).

Definition atob (base64 : string) : Outcome string :=
  match decode (String.list_ascii_of_string base64) with
  | Some codes => Done (String.string_of_list_ascii (Ascii.ascii_of_N <$> codes))
  | None => Throw "The string to be decoded is not correctly encoded."
  end.

End SamplePlatform.

Module Cases.
Import SampleEngine Samples.

(** A root with two paragraphs of the identifier ["a"]. *)
Definition twins : Node :=
  XmlElement (JStr "UNDEFINED") {["$id" := JStr "root-id"]} [para "a"; para "b"; para "a"].

(** [{index: 0, children: [div c1, {}]}]: the second spec is neither an
    element nor a text. *)
Definition brokenSpecs : InsertChildren :=
  {| ic_after := None; ic_index := Some 0;
     ic_children := JArr [divSpec (JStr "c1"); JObj []] |}.


Definition manyHands : list Byte.byte := String.list_byte_of_string "Many hands".

Definition twoDocuments : Entrypoint.Registry :=
  {| Entrypoint.documents := {["doc-1" := openDocument threeParas;
                               "doc-2" := openDocument helloWorld]};
     Entrypoint.protocols := {["doc-1"; "doc-2"]} |}.

Definition deleteB : Entrypoint.UpdatePayload :=
  {| Entrypoint.documentID := "doc-1"; Entrypoint.changes := [deleteNode (Some "b")] |}.

End Cases.

(** * Properties *)

Section Properties.
Context `{Engine}.

Implicit Types (s : ServerXmlDocument) (doc node : Node) (path : list nat).

(** ** Running the monad *)

Lemma run_bind {A B} (m : M A) (f : A → M B) s :
  (m ≫= f) s = match m s with
               | (Done a, s') => f a s'
               | (Throw msg, s') => (Throw msg, s')
               end.
Proof. reflexivity. Qed.

Lemma run_bind_done {A B} (m : M A) (f : A → M B) s a s' :
  m s = (Done a, s') → (m ≫= f) s = f a s'.
Proof. intros Hm. rewrite run_bind, Hm. reflexivity. Qed.

Lemma run_bind_throw {A B} (m : M A) (f : A → M B) s msg s' :
  m s = (Throw msg, s') → (m ≫= f) s = (Throw msg, s').
Proof. intros Hm. rewrite run_bind, Hm. reflexivity. Qed.

Lemma run_read r s node :
  deref (y s) r = Some node → read r s = (Done node, s).
Proof. intros Hr. unfold read. rewrite Hr. reflexivity. Qed.

Lemma forEach_app {A} (l1 l2 : list A) (body : A → M unit) s :
  forEach (l1 ++ l2) body s = (forEach l1 body ;; forEach l2 body) s.
Proof.
  revert s. induction l1 as [|x l1 IH]; intros s; simpl.
  - reflexivity.
  - rewrite !run_bind. destruct (body x s) as [[[]|msg] s1]; [|reflexivity].
    rewrite IH. reflexivity.
Qed.

(** ** The observer *)

Lemma textDeltas_bare deltas :
  Forall (λ entry, cnt_attributes entry = None) (textDeltas deltas).
Proof.
  induction deltas as [|delta rest IH]; simpl; [constructor|].
  apply Forall_app. split; [|exact IH].
  destruct (insertTruthy _); [repeat constructor|].
  destruct (numTruthy (d_delete _)); [repeat constructor|].
  destruct (numTruthy (d_retain _)); repeat constructor.
Qed.

(** C10. Whatever event the observer translates, every entry of the
    notification's [text] sequence has its [attributes] field left out: an
    entry is built from [retain], [insert] and [delete] alone, and the
    formatting a raw delta entry carries is never copied. *)
Theorem text_entries_never_carry_attributes doc (yxmlEvent : YXmlEvent) :
  match translate doc yxmlEvent with
  | Done message => Forall (λ entry, cnt_attributes entry = None) (text message)
  | Throw _ => True
  end.
Proof.
  unfold translate.
  destruct (nodeAt (ev_target yxmlEvent) doc) as [[nm a cs|content]|]; simpl; [| |exact I].
  - destruct (elementDeltas (ev_delta yxmlEvent)); simpl; [constructor|exact I].
  - apply textDeltas_bare.
Qed.

Lemma keyChanges_unfold target keys acc :
  keyChanges target keys acc =
  {| attr_set := attr_set acc ++ omap (setEntry target) keys;
     attr_delete := attr_delete acc ++ omap deleteEntry keys |}.
Proof.
  revert acc. induction keys as [|[key change] rest IH]; intros acc; simpl.
  - rewrite !app_nil_r. destruct acc; reflexivity.
  - rewrite IH. unfold setEntry, deleteEntry. simpl.
    destruct (action change); simpl; rewrite <- ?app_assoc; reflexivity.
Qed.

(** C8. For an event on an element, the notification's [set] list has, for
    each key the event reports as added or updated, an entry whose value is
    the one the element holds when the observer runs, which is after the
    change; the old value the event carries is not used.  Each key reported
    as deleted is in the [delete] list.  Nothing else is in either list. *)
Theorem attribute_changes_report_current_values doc (yxmlEvent : YXmlEvent) nm a cs message
    (Htarget : nodeAt (ev_target yxmlEvent) doc = Some (XmlElement nm a cs))
    (Hmessage : translate doc yxmlEvent = Done message) :
  (∀ key change, (key, change) ∈ ev_keys yxmlEvent → action change ≠ Delete →
     {| name := key; value := default JUndefined (a !! key) |}
       ∈ attr_set (attributes message))
  ∧ (∀ key change, (key, change) ∈ ev_keys yxmlEvent → action change = Delete →
       key ∈ attr_delete (attributes message))
  ∧ (∀ entry, entry ∈ attr_set (attributes message) →
       value entry = default JUndefined (a !! name entry)
       ∧ ∃ change, (name entry, change) ∈ ev_keys yxmlEvent ∧ action change ≠ Delete)
  ∧ (∀ key, key ∈ attr_delete (attributes message) →
       ∃ change, (key, change) ∈ ev_keys yxmlEvent ∧ action change = Delete).
Proof.
  unfold translate in Hmessage. rewrite Htarget in Hmessage. simpl in Hmessage.
  destruct (elementDeltas (ev_delta yxmlEvent)) as [els|]; simpl in Hmessage; [|discriminate].
  injection Hmessage as <-. simpl. rewrite keyChanges_unfold. simpl.
  split; [|split; [|split]].
  - intros key change Hin Hact. apply list_elem_of_omap. exists (key, change).
    split; [exact Hin|]. unfold setEntry. simpl. destruct (action change); congruence.
  - intros key change Hin Hact. apply list_elem_of_omap. exists (key, change).
    split; [exact Hin|]. unfold deleteEntry. simpl. rewrite Hact. reflexivity.
  - intros entry Hentry. apply list_elem_of_omap in Hentry as ([key change] & Hin & Hentry).
    unfold setEntry in Hentry. simpl in Hentry.
    destruct (action change) eqn:Hact; inversion Hentry; subst; simpl;
      (split; [reflexivity|]); exists change; (split; [exact Hin|congruence]).
  - intros key Hkey. apply list_elem_of_omap in Hkey as ([key' change] & Hin & Hentry).
    unfold deleteEntry in Hentry. simpl in Hentry. exists change.
    destruct (action change) eqn:Hact; inversion Hentry; subst. split; [exact Hin|reflexivity].
Qed.

(** ** The applier: guards and sequencing *)

Lemma strictEqStr_false v t : v ≠ JStr t → strictEqStr v t = false.
Proof.
  intros Hne. destruct v; simpl; try reflexivity.
  apply String.eqb_neq. congruence.
Qed.

Lemma strictEqStr_true v t : strictEqStr v t = true ↔ v = JStr t.
Proof.
  destruct v; simpl; split; try discriminate.
  - intros Heq. apply String.eqb_eq in Heq. congruence.
  - intros [= ->]. apply String.eqb_refl.
Qed.

(** C5. On an element whose tag name is not ["text"], each of
    [doInsertText], [doFormatText] and [doDeleteText] throws its
    type-mismatch error before it touches anything: the document, the
    notifications sent and the rest of the state are as they were. *)
Theorem text_commands_need_a_text_element (element : Ref) s node
    (Hnode : deref (y s) element = Some node)
    (Htag : nodeNameOf node ≠ JStr "text") :
  (∀ args, doInsertText element args s
           = (Throw "Can only insert text in a text node.", s))
  ∧ (∀ args, doFormatText element args s
             = (Throw "Can only format text in a text node.", s))
  ∧ (∀ args, doDeleteText element args s
             = (Throw "Can only delete text in a text node.", s)).
Proof.
  apply strictEqStr_false in Htag.
  split; [|split]; intros args.
  - unfold doInsertText. rewrite (run_bind_done _ _ _ _ _ (run_read _ _ _ Hnode)).
    rewrite Htag. reflexivity.
  - unfold doFormatText. rewrite (run_bind_done _ _ _ _ _ (run_read _ _ _ Hnode)).
    rewrite Htag. reflexivity.
  - unfold doDeleteText. rewrite (run_bind_done _ _ _ _ _ (run_read _ _ _ Hnode)).
    rewrite Htag. reflexivity.
Qed.

Lemma applyChange_resolved change s :
  applyChange change s =
  match resolve change (y s) with
  | None => (Throw ("Element was not found for nodeID " +:+ strOf (nodeID change)), s)
  | Some path => subActions change path s
  end.
Proof.
  unfold applyChange. rewrite run_bind. unfold getY.
  destruct (resolve change (y s)); reflexivity.
Qed.

(** A command whose target is not found fails before it does anything. *)
Lemma applyChange_target_missing change s :
  resolve change (y s) = None →
  applyChange change s
  = (Throw ("Element was not found for nodeID " +:+ strOf (nodeID change)), s).
Proof. intros Hres. rewrite applyChange_resolved, Hres. reflexivity. Qed.

Lemma scanChildren_Some find cs i path :
  scanChildren find cs i = Some path →
  ∃ j c child, path = (i + j) :: child ∧ cs !! j = Some c ∧ find c = Some child.
Proof.
  revert i. induction cs as [|e rest IH]; intros i; simpl; [discriminate|].
  destruct (find e) as [child|] eqn:He.
  - intros [= <-]. exists 0, e, child. rewrite Nat.add_0_r. auto.
  - intros Hscan. apply IH in Hscan as (j & c & child & -> & Hc & Hfind).
    exists (S j), c, child. split; [f_equal; lia|]. split; [exact Hc|exact Hfind].
Qed.

(** A node [findNode] finds for an identifier is an element of the tree
    that carries it. *)
Lemma findNode_sound nodeID doc path :
  given nodeID = true →
  findNode nodeID doc = Some path →
  ∃ nm a cs, nodeAt path doc = Some (XmlElement nm a cs)
             ∧ a !! "$id" = Some (JStr (strOf nodeID)).
Proof.
  intros Hgiven. revert path.
  induction doc as [nm a cs IH|content] using Node_forall_ind; intros path; simpl;
    rewrite Hgiven; simpl; [|discriminate].
  destruct (strictEqStr (default JUndefined (a !! "$id")) (strOf nodeID)) eqn:Hid.
  - intros [= <-]. exists nm, a, cs. split; [reflexivity|].
    apply strictEqStr_true in Hid. destruct (a !! "$id"); simpl in Hid; congruence.
  - intros Hscan. apply scanChildren_Some in Hscan as (j & c & child & -> & Hc & Hfind).
    simpl. rewrite Hc. simpl. rewrite Forall_forall in IH.
    apply (IH c); [eapply list_elem_of_lookup_2, Hc|exact Hfind].
Qed.

(** C4. A command that asks for [delete] and resolves to the document root
    fails with "Cannot delete top-level element.", as the first thing it
    does: the state after it is the state before it. *)
Theorem deleting_the_root_fails change s
    (Hdelete : c_delete change = true)
    (Hroot : resolve change (y s) = Some []) :
  applyChange change s = (Throw "Cannot delete top-level element.", s)
  ∧ applyChanges [change] s = (Throw "Cannot delete top-level element.", s).
Proof.
  assert (Hone : applyChange change s = (Throw "Cannot delete top-level element.", s)).
  { rewrite applyChange_resolved, Hroot. unfold subActions. rewrite Hdelete. reflexivity. }
  split; [exact Hone|].
  unfold applyChanges. simpl. rewrite (run_bind_throw _ _ _ _ _ Hone). reflexivity.
Qed.

Lemma applyChanges_cons change changes s :
  applyChanges (change :: changes) s =
  match applyChange change s with
  | (Done _, s') => applyChanges changes s'
  | (Throw msg, s') => (Throw msg, s')
  end.
Proof. reflexivity. Qed.

(** C3. [applyChanges] runs the commands in the order given and stops at
    the first that fails.  When the commands [before] succeed and leave
    [s1], and [failing] then throws from [s1] leaving [s2], the whole batch
    throws the same error and leaves [s2], whatever commands come [after]:
    what [before] did stays done, and no command of [after] runs. *)
Theorem batch_stops_at_first_failure (before after : list AppliedChange) failing s s1 s2 msg
    (Hbefore : applyChanges before s = (Done tt, s1))
    (Hfailing : applyChange failing s1 = (Throw msg, s2)) :
  applyChanges (before ++ failing :: after) s = (Throw msg, s2).
Proof.
  unfold applyChanges in *. rewrite forEach_app.
  rewrite (run_bind_done _ _ _ _ _ Hbefore). simpl.
  rewrite (run_bind_throw _ _ _ _ _ Hfailing). reflexivity.
Qed.

(** ** Transactions on a node of the document *)

Lemma nodeAt_updateAt path doc node n' :
  nodeAt path doc = Some node → nodeAt path (updateAt path n' doc) = Some n'.
Proof.
  revert doc. induction path as [|i rest IH]; intros doc Hat; simpl in *; [reflexivity|].
  destruct doc as [nm a cs|content]; [|discriminate].
  destruct (cs !! i) as [c|] eqn:Hc; simpl in Hat; [|discriminate].
  rewrite list_lookup_alter, Hc. simpl. rewrite decide_True by reflexivity.
  simpl. apply IH. exact Hat.
Qed.

Lemma elementDeltas_insertDelta index nodes :
  elementDeltas (insertDelta index nodes)
  = Done (retained index
          ++ [{| cne_retain := None; cne_insert := Some (serialize <$> nodes);
                 cne_delete := None |}]).
Proof. destruct index; reflexivity. Qed.

(** A transaction on an element of the document with an event that
    translates to [message]. *)
Lemma commit_attached path s node n' events message :
  nodeAt path (y s) = Some node →
  translate (updateAt path n' (y s)) (events path) = Done message →
  commit (Attached path) n' (λ p, [events p]) s = (Done tt, committed s path n' message).
Proof.
  intros Hat Hmsg. unfold commit, observeDeep. simpl.
  rewrite !run_bind. unfold getY. simpl. rewrite run_bind. unfold lift. simpl.
  rewrite Hmsg. reflexivity.
Qed.

Lemma y_insert_attached path s nm a cs index content :
  nodeAt path (y s) = Some (XmlElement nm a cs) →
  index ≤ length cs →
  y_insert (Attached path) index content s
  = (Done tt, committed s path (XmlElement nm a (insertAt index content cs))
                (insertionNotice path a index content)).
Proof.
  intros Hat Hle. unfold y_insert.
  rewrite (run_bind_done _ _ _ _ _ (run_read (Attached path) _ _ Hat)).
  destruct (decide (index ≤ length cs)) as [_|Hno]; [|contradiction].
  apply (commit_attached path s (XmlElement nm a cs) _
           (λ p, {| ev_target := p; ev_delta := insertDelta index content; ev_keys := [] |})
           _ Hat).
  unfold translate. simpl. rewrite (nodeAt_updateAt _ _ _ _ Hat).
  rewrite elementDeltas_insertDelta. reflexivity.
Qed.


(** ** createNodes leaves the document alone *)

Lemma sameDocument_refl s : sameDocument s s.
Proof. repeat split; reflexivity. Qed.

Lemma sameDocument_trans s s1 s2 :
  sameDocument s s1 → sameDocument s1 s2 → sameDocument s s2.
Proof.
  intros (Hy & Hu & Hn & Hd) (Hy' & Hu' & Hn' & Hd').
  repeat split; try congruence. lia.
Qed.

Lemma mapM_sameDocument {A B} (f : A → M B) (l : list A) :
  (∀ x s, sameDocument s (f x s).2) → ∀ s, sameDocument s (mapM f l s).2.
Proof.
  intros Hf. induction l as [|x l IH]; intros s; simpl.
  - apply sameDocument_refl.
  - rewrite run_bind. pose proof (Hf x s) as Hx.
    destruct (f x s) as [[b|msg] s1]; simpl in *; [|exact Hx].
    rewrite run_bind. pose proof (IH s1) as Hl.
    destruct (mapM f l s1) as [[bs|msg] s2]; simpl in *;
      eapply sameDocument_trans; eauto.
Qed.

Lemma nextUuid_sameDocument s : sameDocument s (nextUuid s).2.
Proof. repeat split; simpl; lia. Qed.

Lemma createNode_sameDocument recurse child :
  (∀ v s, sameDocument s (recurse v s).2) → ∀ s, sameDocument s (createNode recurse child s).2.
Proof.
  intros Hrec s. unfold createNode.
  destruct (nullish child); [apply sameDocument_refl|].
  destruct (truthy (jsget child "text")); [apply sameDocument_refl|].
  destruct (truthy (jsget child "element")); [|apply sameDocument_refl].
  rewrite run_bind.
  match goal with |- context [?idm s] =>
    assert (Hid : sameDocument s (idm s).2);
      [|destruct (idm s) as [[id|msg] s1]; simpl in *; [|exact Hid]]
  end.
  { destruct (nullish _); [apply nextUuid_sameDocument|].
    destruct (nullish _); [apply nextUuid_sameDocument|apply sameDocument_refl]. }
  destruct (truthy (jsget (jsget child "element") "children")); [|exact Hid].
  rewrite run_bind. pose proof (Hrec (jsget (jsget child "element") "children") s1) as Hk.
  destruct (recurse _ s1) as [[nodes|msg] s2]; simpl in *;
    eapply sameDocument_trans; eauto.
Qed.

Lemma createNodesFuel_sameDocument fuel children s :
  sameDocument s (createNodesFuel fuel children s).2.
Proof.
  revert children s. induction fuel as [|fuel IH]; intros children s; simpl.
  - apply sameDocument_refl.
  - destruct (jsiter children) as [items|]; [|apply sameDocument_refl].
    apply mapM_sameDocument. intros x s'. apply createNode_sameDocument. exact IH.
Qed.

Lemma createNodes_sameDocument children s : sameDocument s (createNodes children s).2.
Proof. apply createNodesFuel_sameDocument. Qed.

(** ** createNodes always has budget enough *)

Lemma jsize_pos v : 1 ≤ jsize v.
Proof. destruct v; simpl; lia. Qed.

Lemma assoc_elem_of k fs v : assoc k fs = Some v → (k, v) ∈ fs.
Proof.
  induction fs as [|[k' v'] fs IH]; simpl; [discriminate|].
  destruct (String.eqb k' k) eqn:Hk.
  - intros [= ->]. apply String.eqb_eq in Hk as ->. left.
  - intros Hin. right. apply IH. exact Hin.
Qed.

Lemma jsize_elem_of x (l : list JsVal) : x ∈ l → jsize x ≤ list_sum (List.map jsize l).
Proof.
  induction 1 as [x l|x x' l _ IH]; simpl; lia.
Qed.

Lemma jsize_field k x (fs : list (string * JsVal)) :
  (k, x) ∈ fs → jsize x ≤ list_sum (List.map (λ kv, jsize kv.2) fs).
Proof.
  intros Hin. induction fs as [|[k' x'] fs IH]; [inversion Hin|].
  simpl. apply elem_of_cons in Hin as [[= <- <-]|Hin]; [lia|].
  specialize (IH Hin). lia.
Qed.

Lemma chars_single x str : x ∈ chars str → ∃ c, x = JStr (String c "").
Proof.
  unfold chars. intros Hin. apply list_elem_of_fmap in Hin as (c & -> & _).
  exists c. reflexivity.
Qed.

Lemma jsize_entry k x v : (k, x) ∈ jsentries v → jsize x ≤ jsize v.
Proof.
  destruct v as [| | | |str|l|fs]; simpl; try (intros Hin; inversion Hin; fail).
  - intros Hin. apply elem_of_lookup_imap in Hin as (i & c & [= -> ->] & Hc).
    apply list_elem_of_lookup_2, chars_single in Hc as (c' & ->). simpl. lia.
  - intros Hin. apply elem_of_lookup_imap in Hin as (i & c & [= -> ->] & Hc).
    apply list_elem_of_lookup_2, jsize_elem_of in Hc. lia.
  - intros Hin. apply jsize_field in Hin. lia.
Qed.

Lemma jsize_jsget v k : jsize (jsget v k) ≤ jsize v.
Proof.
  unfold jsget. destruct (assoc k (jsentries v)) as [x|] eqn:Hx; simpl.
  - eapply jsize_entry, assoc_elem_of, Hx.
  - apply jsize_pos.
Qed.

(** The children a child's element spec carries weigh less than the array
    the child is taken from. *)
Lemma jsize_nested children items child :
  jsiter children = Some items → child ∈ items →
  truthy (jsget child "element") = true →
  jsize (jsget (jsget child "element") "children") < jsize children.
Proof.
  intros Hiter Hin Helement.
  destruct children as [| | | |str|l|fs]; simpl in Hiter; try discriminate.
  - injection Hiter as <-. apply chars_single in Hin as (c & ->).
    vm_compute in Helement. discriminate.
  - injection Hiter as <-. apply jsize_elem_of in Hin.
    pose proof (jsize_jsget (jsget child "element") "children").
    pose proof (jsize_jsget child "element"). simpl. lia.
Qed.

Lemma mapM_never_throws {A B} (f : A → M B) (l : list A) msg :
  (∀ x, x ∈ l → ∀ s, thrown (f x s).1 ≠ Some msg) → ∀ s, thrown (mapM f l s).1 ≠ Some msg.
Proof.
  induction l as [|x l IH]; intros Hf s; simpl; [discriminate|].
  rewrite run_bind. pose proof (Hf x ltac:(left) s) as Hx.
  destruct (f x s) as [[b|msg'] s1]; simpl in *; [|exact Hx].
  rewrite run_bind.
  assert (Hl : thrown (mapM f l s1).1 ≠ Some msg).
  { apply IH. intros x' Hin. apply Hf. right. exact Hin. }
  destruct (mapM f l s1) as [[bs|msg'] s2]; simpl in *; [discriminate|exact Hl].
Qed.

Lemma createNode_never_exhausted recurse child s :
  (truthy (jsget child "element") = true →
   ∀ s', thrown (recurse (jsget (jsget child "element") "children") s').1 ≠ Some outOfFuel) →
  thrown (createNode recurse child s).1 ≠ Some outOfFuel.
Proof.
  intros Hrec. unfold createNode.
  destruct (nullish child); [discriminate|].
  destruct (truthy (jsget child "text")); [discriminate|].
  destruct (truthy (jsget child "element")); [|discriminate].
  rewrite run_bind.
  match goal with |- context [?idm s] =>
    assert (Hid : thrown (idm s).1 ≠ Some outOfFuel);
      [|destruct (idm s) as [[id|msg] s1]; simpl in *; [|exact Hid]]
  end.
  { destruct (nullish _); [discriminate|]. destruct (nullish _); discriminate. }
  destruct (truthy (jsget (jsget child "element") "children")); [|discriminate].
  rewrite run_bind. specialize (Hrec eq_refl s1).
  destruct (recurse _ s1) as [[nodes|msg] s2]; simpl in *; [discriminate|exact Hrec].
Qed.

(** With the weight of the spec as its budget, the recursion never runs
    out: [createNodes] ends as the source does, with nodes or with one of
    the source's own errors. *)
Lemma createNodesFuel_enough fuel children s :
  jsize children ≤ fuel → thrown (createNodesFuel fuel children s).1 ≠ Some outOfFuel.
Proof.
  revert children s. induction fuel as [|fuel IH]; intros children s Hfuel.
  - pose proof (jsize_pos children). lia.
  - simpl. destruct (jsiter children) as [items|] eqn:Hiter; [|discriminate].
    apply mapM_never_throws. intros child Hin s'.
    apply createNode_never_exhausted. intros Helement s''. apply IH.
    pose proof (jsize_nested _ _ _ Hiter Hin Helement). lia.
Qed.

Lemma mapM_ext_unless {A B} (f g : A → M B) (l : list A) msg :
  (∀ x s, thrown (f x s).1 ≠ Some msg → g x s = f x s) →
  ∀ s, thrown (mapM f l s).1 ≠ Some msg → mapM g l s = mapM f l s.
Proof.
  intros Hext. induction l as [|x l IH]; intros s; simpl; [reflexivity|].
  rewrite !run_bind. intros Hok.
  assert (Hx : thrown (f x s).1 ≠ Some msg).
  { destruct (f x s) as [[b|msg'] s1]; simpl in *; [discriminate|exact Hok]. }
  rewrite (Hext x s Hx). destruct (f x s) as [[b|msg'] s1]; [|reflexivity].
  rewrite !run_bind in *.
  assert (Hl : thrown (mapM f l s1).1 ≠ Some msg).
  { destruct (mapM f l s1) as [[bs|msg'] s2]; simpl in *; [discriminate|exact Hok]. }
  rewrite (IH s1 Hl). reflexivity.
Qed.

Lemma createNode_ext_unless recurse recurse' child s :
  (∀ v s', thrown (recurse v s').1 ≠ Some outOfFuel → recurse' v s' = recurse v s') →
  thrown (createNode recurse child s).1 ≠ Some outOfFuel →
  createNode recurse' child s = createNode recurse child s.
Proof.
  intros Hext. unfold createNode.
  destruct (nullish child); [reflexivity|].
  destruct (truthy (jsget child "text")); [reflexivity|].
  destruct (truthy (jsget child "element")); [|reflexivity].
  rewrite !run_bind.
  match goal with |- context [?idm s] => destruct (idm s) as [[id|msg] s1] end;
    [|reflexivity].
  destruct (truthy (jsget (jsget child "element") "children")); [|reflexivity].
  rewrite !run_bind. intros Hok.
  assert (Hk : thrown (recurse (jsget (jsget child "element") "children") s1).1
               ≠ Some outOfFuel).
  { destruct (recurse _ s1) as [[nodes|msg] s2]; simpl in *; [discriminate|exact Hok]. }
  rewrite (Hext _ _ Hk). reflexivity.
Qed.

(** A larger budget changes nothing once the budget is enough. *)
Lemma createNodesFuel_more fuel children s :
  thrown (createNodesFuel fuel children s).1 ≠ Some outOfFuel →
  createNodesFuel (S fuel) children s = createNodesFuel fuel children s.
Proof.
  revert children s. induction fuel as [|fuel IH]; intros children s Hok.
  - exfalso. apply Hok. reflexivity.
  - change (createNodesFuel (S (S fuel)) children s)
      with (match jsiter children with
            | Some items => mapM (createNode (createNodesFuel (S fuel))) items
            | None => throw typeError
            end s).
    change (createNodesFuel (S fuel) children s)
      with (match jsiter children with
            | Some items => mapM (createNode (createNodesFuel fuel)) items
            | None => throw typeError
            end s) in Hok |- *.
    destruct (jsiter children) as [items|]; [|reflexivity].
    apply mapM_ext_unless with (msg := outOfFuel); [|exact Hok].
    intros child s'. apply createNode_ext_unless. exact IH.
Qed.

Lemma createNodesFuel_stable fuel children s :
  jsize children ≤ fuel → createNodesFuel fuel children s = createNodes children s.
Proof.
  unfold createNodes. induction 1 as [|fuel Hle IH]; [reflexivity|].
  rewrite <- IH. apply createNodesFuel_more, createNodesFuel_enough. exact Hle.
Qed.

Lemma createNodes_never_exhausted children s :
  thrown (createNodes children s).1 ≠ Some outOfFuel.
Proof. apply createNodesFuel_enough. reflexivity. Qed.

(** ** Inserting children *)


Lemma findAfter_None after cs i :
  findAfter after cs i = None → Forall (λ c, matchesAfter after c = false) cs.
Proof.
  revert i. induction cs as [|c cs IH]; intros i; simpl; [constructor|].
  destruct (matchesAfter after c) eqn:Hc; [discriminate|].
  intros Hfind. constructor; [exact Hc|]. eapply IH, Hfind.
Qed.


(** [doInsertChildren] on an element of the document, step by step: the
    position is settled first, then the nodes are built, then they go in. *)
Lemma doInsertChildren_attached path s nm a cs args :
  nodeAt path (y s) = Some (XmlElement nm a cs) →
  doInsertChildren (Attached path) args s =
  match insertionPoint args cs with
  | inl msg => (Throw msg, s)
  | inr index =>
      match createNodes (ic_children args) s with
      | (Done nodes, s1) => y_insert (Attached path) index nodes s1
      | (Throw msg, s1) => (Throw msg, s1)
      end
  end.
Proof.
  intros Hat. unfold doInsertChildren, insertionPoint.
  rewrite (run_bind_done _ _ _ _ _ (run_read (Attached path) _ _ Hat)). simpl.
  rewrite run_bind.
  destruct (given (ic_after args)).
  - destruct (findAfter (strOf (ic_after args)) cs 0) as [e|]; [|reflexivity].
    simpl. rewrite run_bind.
    destruct (createNodes (ic_children args) s) as [[nodes|msg] s1]; reflexivity.
  - simpl. destruct (ic_index args) as [index|].
    + rewrite run_bind.
      destruct (createNodes (ic_children args) s) as [[nodes|msg] s1]; reflexivity.
    + rewrite run_bind. pose proof (createNodes_sameDocument (ic_children args) s) as Hsame.
      destruct (createNodes (ic_children args) s) as [[nodes|msg] s1]; [|reflexivity].
      destruct Hsame as (Hy & _). simpl in Hy. unfold y_push.
      assert (Hat1 : deref (y s1) (Attached path) = Some (XmlElement nm a cs)).
      { simpl. rewrite Hy. exact Hat. }
      rewrite (run_bind_done _ _ _ _ _ (run_read (Attached path) _ _ Hat1)).
      reflexivity.
Qed.

(** The nodes are in, at [index], and the notification went out. *)
Lemma doInsertChildren_done path s nm a cs args index nodes s1 :
  nodeAt path (y s) = Some (XmlElement nm a cs) →
  insertionPoint args cs = inr index →
  index ≤ length cs →
  createNodes (ic_children args) s = (Done nodes, s1) →
  doInsertChildren (Attached path) args s
  = (Done tt, committed s1 path (XmlElement nm a (insertAt index nodes cs))
                (insertionNotice path a index nodes))
  ∧ y s1 = y s ∧ notified s1 = notified s.
Proof.
  intros Hat Hpoint Hle Hnodes.
  pose proof (createNodes_sameDocument (ic_children args) s) as (Hy & _ & Hn & _).
  rewrite Hnodes in Hy, Hn. simpl in Hy, Hn.
  rewrite (doInsertChildren_attached _ _ _ _ _ _ Hat), Hpoint, Hnodes.
  split; [|split; assumption].
  apply y_insert_attached; [rewrite Hy; exact Hat|exact Hle].
Qed.


Lemma committed_at path s node n' message :
  nodeAt path (y s) = Some node →
  nodeAt path (y (committed s path n' message)) = Some n'.
Proof. intros Hat. simpl. eapply nodeAt_updateAt, Hat. Qed.


(** ** The observer on an insertion *)



(** ** Deleting children *)

Lemma elementDeltas_deleteDelta index length :
  ∃ els, elementDeltas (deleteDelta index length) = Done els.
Proof. destruct index, length; eexists; reflexivity. Qed.

Lemma y_delete_attached path s nm a cs index length :
  nodeAt path (y s) = Some (XmlElement nm a cs) →
  index + length ≤ List.length cs →
  ∃ message,
    y_delete (Attached path) index length s
    = (Done tt, committed s path (XmlElement nm a (removeRange index length cs)) message).
Proof.
  intros Hat Hle. unfold y_delete.
  rewrite (run_bind_done _ _ _ _ _ (run_read (Attached path) _ _ Hat)).
  destruct (decide (index + length ≤ List.length cs)) as [_|Hno]; [|contradiction].
  destruct (elementDeltas_deleteDelta index length) as (els & Hels).
  eexists.
  apply (commit_attached path s (XmlElement nm a cs) _
           (λ p, {| ev_target := p; ev_delta := deleteDelta index length; ev_keys := [] |})
           _ Hat).
  unfold translate. simpl. rewrite (nodeAt_updateAt _ _ _ _ Hat), Hels. reflexivity.
Qed.

(** What [doDeleteChildren] does with [after]: the range it removes starts
    at the child [after] resolves to, not behind it. *)
Lemma doDeleteChildren_after path s nm a cs args e :
  nodeAt path (y s) = Some (XmlElement nm a cs) →
  given (dc_after args) = true →
  findAfter (strOf (dc_after args)) cs 0 = Some e →
  e + dc_length args ≤ length cs →
  ∃ message,
    doDeleteChildren (Attached path) args s
    = (Done tt, committed s path
                  (XmlElement nm a (take e cs ++ drop (e + dc_length args) cs)) message).
Proof.
  intros Hat Hgiven Hsome Hle. unfold doDeleteChildren.
  rewrite (run_bind_done _ _ _ _ _ (run_read (Attached path) _ _ Hat)). simpl.
  rewrite Hgiven, Hsome. apply (y_delete_attached _ _ _ _ _ _ _ Hat Hle).
Qed.

Lemma doDeleteChildren_index path s nm a cs args index :
  nodeAt path (y s) = Some (XmlElement nm a cs) →
  given (dc_after args) = false →
  dc_index args = Some index →
  index + dc_length args ≤ length cs →
  ∃ message,
    doDeleteChildren (Attached path) args s
    = (Done tt, committed s path
                  (XmlElement nm a (take index cs ++ drop (index + dc_length args) cs)) message).
Proof.
  intros Hat Hgiven Hindex Hle. unfold doDeleteChildren.
  rewrite (run_bind_done _ _ _ _ _ (run_read (Attached path) _ _ Hat)). simpl.
  rewrite Hgiven, Hindex. apply (y_delete_attached _ _ _ _ _ _ _ Hat Hle).
Qed.

Lemma doDeleteChildren_neither path s node args :
  nodeAt path (y s) = Some node →
  given (dc_after args) = false →
  dc_index args = None →
  doDeleteChildren (Attached path) args s
  = (Throw "No 'index' specified for deleteChildren.", s).
Proof.
  intros Hat Hgiven Hindex. unfold doDeleteChildren.
  rewrite (run_bind_done _ _ _ _ _ (run_read (Attached path) _ _ Hat)).
  rewrite Hgiven, Hindex. reflexivity.
Qed.

(** ** Building an element from a spec *)

Lemma falsy_no_entries v : truthy v = false → jsentries v = [].
Proof.
  destruct v as [| |b|z|str|l|fs]; simpl; try reflexivity; try discriminate.
  destruct str; [reflexivity|discriminate].
Qed.

Lemma nullish_jsget v k : nullish v = true → jsget v k = JUndefined.
Proof. destruct v; simpl; try discriminate; reflexivity. Qed.

Lemma foldl_setAttr bag nm m cs keys :
  foldl (λ element k, setAttr k (jsget bag k) element) (XmlElement nm m cs) keys
  = XmlElement nm (foldl (λ m k, <[k := jsget bag k]> m) m keys) cs.
Proof.
  revert m. induction keys as [|k keys IH]; intros m; simpl; [reflexivity|apply IH].
Qed.

Lemma createNode_element recurse child s :
  nullish child = false →
  truthy (jsget child "text") = false →
  truthy (jsget child "element") = true →
  createNode recurse child s =
  let spec := jsget child "element" in
  let bag := jsget spec "attributes" in
  let element :=
    XmlElement (nodeNameOf (newXmlElement (jsget spec "name")))
      (builtAttributes bag (drawn s)) [] in
  if truthy (jsget spec "children") then
    match recurse (jsget spec "children") (afterId bag s) with
    | (Done nodes, s2) => (Done (insertInto 0 nodes element), s2)
    | (Throw msg, s2) => (Throw msg, s2)
    end
  else (Done element, afterId bag s).
Proof.
  intros Hchild Htext Helement. unfold createNode.
  rewrite Hchild, Htext, Helement. rewrite run_bind. cbv zeta.
  set (spec := jsget child "element"). set (bag := jsget spec "attributes").
  assert (Hid : (if nullish bag then nextUuid
                 else if nullish (jsget bag "id") then nextUuid
                      else mret (jsget bag "id")) s
                = (Done (chosenId bag (drawn s)), afterId bag s)).
  { unfold chosenId, afterId. destruct (nullish bag) eqn:Hbag.
    - rewrite (nullish_jsget _ _ Hbag). reflexivity.
    - destruct (nullish (jsget bag "id")); reflexivity. }
  rewrite Hid.
  assert (Hattrs : (if truthy bag
                    then foldl (λ element k, setAttr k (jsget bag k) element)
                           (setAttr "$id" (chosenId bag (drawn s))
                              (newXmlElement (jsget spec "name"))) (jskeys bag)
                    else setAttr "$id" (chosenId bag (drawn s))
                           (newXmlElement (jsget spec "name")))
                   = XmlElement (nodeNameOf (newXmlElement (jsget spec "name")))
                       (builtAttributes bag (drawn s)) []).
  { unfold builtAttributes, setKeys, newXmlElement. simpl.
    rewrite insert_empty.
    destruct (truthy bag) eqn:Hbag.
    - apply foldl_setAttr.
    - unfold jskeys. rewrite (falsy_no_entries _ Hbag). reflexivity. }
  rewrite Hattrs.
  destruct (truthy (jsget spec "children")); [|reflexivity].
  rewrite run_bind. destruct (recurse _ _) as [[nodes|msg] s2]; reflexivity.
Qed.

Lemma setKeys_lookup bag m k :
  setKeys bag m !! k = if decide (k ∈ jskeys bag) then Some (jsget bag k) else m !! k.
Proof.
  unfold setKeys. generalize (jskeys bag) as keys. intros keys. revert m.
  induction keys as [|k' keys IH]; intros m; cbn [foldl].
  - rewrite decide_False by (apply not_elem_of_nil). reflexivity.
  - rewrite IH. destruct (decide (k ∈ keys)) as [Hin|Hout].
    + rewrite decide_True by (right; exact Hin). reflexivity.
    + destruct (decide (k = k')) as [->|Hne].
      * rewrite decide_True by left. apply lookup_insert_eq.
      * rewrite decide_False by (rewrite elem_of_cons; tauto).
        apply lookup_insert_ne. congruence.
Qed.

Lemma builtAttributes_id bag n :
  builtAttributes bag n !! "$id"
  = Some (if decide ("$id" ∈ jskeys bag) then jsget bag "$id" else chosenId bag n).
Proof.
  unfold builtAttributes. rewrite setKeys_lookup.
  destruct (decide ("$id" ∈ jskeys bag)); [reflexivity|apply lookup_singleton_eq].
Qed.

Lemma mapM_Forall {A B} (f : A → M B) (P : B → Prop) (l : list A) :
  (∀ x s b s', f x s = (Done b, s') → P b) →
  ∀ s bs s', mapM f l s = (Done bs, s') → Forall P bs.
Proof.
  intros Hf. induction l as [|x l IH]; intros s bs s'; simpl.
  - intros [= <- _]. constructor.
  - rewrite run_bind. destruct (f x s) as [[b|msg] s1] eqn:Hx; [|discriminate].
    rewrite run_bind. destruct (mapM f l s1) as [[bs'|msg] s2] eqn:Hl; [|discriminate].
    intros [= <- _]. constructor; [eapply Hf, Hx|eapply IH, Hl].
Qed.

Lemma forallb_Forall {A} (f : A → bool) (l : list A) :
  forallb f l = true ↔ Forall (λ x, f x = true) l.
Proof.
  induction l as [|x l IH]; simpl.
  - split; [constructor|reflexivity].
  - rewrite andb_true_iff, Forall_cons, IH. reflexivity.
Qed.

Lemma insertAt_fresh nodes : insertAt 0 nodes [] = nodes.
Proof. unfold insertAt. simpl. apply app_nil_r. Qed.

Lemma createNode_identified recurse child s node s' :
  (∀ v s1 nodes s2, recurse v s1 = (Done nodes, s2) → forallb identified nodes = true) →
  createNode recurse child s = (Done node, s') →
  identified node = true.
Proof.
  intros Hrec. destruct (nullish child) eqn:Hchild.
  { unfold createNode. rewrite Hchild. discriminate. }
  destruct (truthy (jsget child "text")) eqn:Htext.
  { unfold createNode. rewrite Hchild, Htext.
    intros [= <- _]. destruct (truthy (jsget (jsget child "text") "delta")); reflexivity. }
  destruct (truthy (jsget child "element")) eqn:Helement.
  2: { unfold createNode. rewrite Hchild, Htext, Helement. discriminate. }
  rewrite (createNode_element _ _ _ Hchild Htext Helement). cbv zeta.
  destruct (truthy (jsget (jsget child "element") "children")).
  - destruct (recurse _ _) as [[nodes|msg] s2] eqn:Hnodes; [|discriminate].
    intros [= <- _]. rewrite insertAt_fresh. simpl.
    rewrite builtAttributes_id. rewrite bool_decide_eq_true_2 by eauto.
    simpl. eapply Hrec, Hnodes.
  - intros [= <- _]. simpl. rewrite builtAttributes_id.
    rewrite bool_decide_eq_true_2 by eauto. reflexivity.
Qed.

Lemma createNodesFuel_identified fuel children s nodes s' :
  createNodesFuel fuel children s = (Done nodes, s') → forallb identified nodes = true.
Proof.
  revert children s nodes s'. induction fuel as [|fuel IH]; intros children s nodes s'; simpl.
  - discriminate.
  - destruct (jsiter children) as [items|]; [|discriminate].
    intros Hmap. apply forallb_Forall.
    eapply (mapM_Forall _ (λ node, identified node = true)), Hmap.
    intros child s1 node s2. apply createNode_identified. exact IH.
Qed.

(** C9, as the code has it.  An element built from a spec carries a [$id]
    attribute, and so does every element below it.  Its value is the
    spec's [id] attribute whenever that is anything but [undefined] or
    [null], the empty string included; otherwise it is the string the
    generator gives next.  A [$id] entry among the spec's own attributes
    takes the place of either. *)
Theorem built_elements_carry_an_id fuel child s node s'
    (Hbuilt : createNode (createNodesFuel fuel) child s = (Done node, s'))
    (Helement : isElement node = true) :
  identified node = true
  ∧ getAttribute node "$id" =
      let bag := jsget (jsget child "element") "attributes" in
      if decide ("$id" ∈ jskeys bag) then jsget bag "$id"
      else if nullish (jsget bag "id") then JStr (uuid (drawn s))
      else jsget bag "id".
Proof.
  split.
  { eapply createNode_identified, Hbuilt. intros v s1 nodes s2.
    apply createNodesFuel_identified. }
  destruct (nullish child) eqn:Hchild.
  { unfold createNode in Hbuilt. rewrite Hchild in Hbuilt. discriminate. }
  destruct (truthy (jsget child "text")) eqn:Htext.
  { unfold createNode in Hbuilt. rewrite Hchild, Htext in Hbuilt.
    injection Hbuilt as <- _.
    destruct (truthy (jsget (jsget child "text") "delta")); discriminate. }
  destruct (truthy (jsget child "element")) eqn:Hspec.
  2: { unfold createNode in Hbuilt. rewrite Hchild, Htext, Hspec in Hbuilt. discriminate. }
  rewrite (createNode_element _ _ _ Hchild Htext Hspec) in Hbuilt. cbv zeta in *.
  assert (Hid : ∀ nm cs,
            getAttribute (XmlElement nm
              (builtAttributes (jsget (jsget child "element") "attributes") (drawn s)) cs) "$id"
            = if decide ("$id" ∈ jskeys (jsget (jsget child "element") "attributes"))
              then jsget (jsget (jsget child "element") "attributes") "$id"
              else chosenId (jsget (jsget child "element") "attributes") (drawn s)).
  { intros nm cs. simpl. rewrite builtAttributes_id. reflexivity. }
  unfold chosenId in Hid.
  destruct (truthy (jsget (jsget child "element") "children")).
  - destruct (createNodesFuel _ _ _) as [[nodes|msg] s2]; [|discriminate].
    injection Hbuilt as <- _. apply Hid.
  - injection Hbuilt as <- _. apply Hid.
Qed.

(** ** Building from the serialized form *)

Lemma assoc_list_to_map k (fs : list (string * JsVal)) :
  assoc k fs = (list_to_map fs : gmap string JsVal) !! k.
Proof.
  induction fs as [|[k' v] fs IH]; simpl; [reflexivity|].
  destruct (String.eqb k' k) eqn:Hk.
  - apply String.eqb_eq in Hk as ->. rewrite lookup_insert_eq. reflexivity.
  - apply String.eqb_neq in Hk. rewrite lookup_insert_ne by exact Hk. exact IH.
Qed.

Lemma assoc_map_to_list k (a : gmap string JsVal) : assoc k (map_to_list a) = a !! k.
Proof. rewrite assoc_list_to_map, list_to_map_to_list. reflexivity. Qed.

Lemma jsget_getAttributes (a : gmap string JsVal) k :
  jsget (getAttributes a) k = default JUndefined (a !! k).
Proof. unfold jsget, getAttributes. simpl. rewrite assoc_map_to_list. reflexivity. Qed.

Lemma jskeys_getAttributes (a : gmap string JsVal) k :
  k ∈ jskeys (getAttributes a) ↔ is_Some (a !! k).
Proof.
  unfold jskeys, getAttributes. simpl. rewrite list_elem_of_fmap. split.
  - intros ([k' v] & -> & Hin). apply elem_of_map_to_list in Hin. eauto.
  - intros [v Hv]. exists (k, v). split; [reflexivity|]. apply elem_of_map_to_list. exact Hv.
Qed.

(** The loop over the keys of a serialized attribute map writes the map
    back; the identifier set before the loop is overwritten by the map's
    own. *)
Lemma setKeys_getAttributes (a m : gmap string JsVal) :
  setKeys (getAttributes a) m = a ∪ m.
Proof.
  apply map_eq. intros k. rewrite setKeys_lookup, lookup_union.
  destruct (decide (k ∈ jskeys (getAttributes a))) as [Hin|Hout].
  - apply jskeys_getAttributes in Hin as [v Hv].
    rewrite jsget_getAttributes, Hv. simpl. destruct (m !! k); reflexivity.
  - destruct (a !! k) as [v|] eqn:Hv.
    + exfalso. apply Hout, jskeys_getAttributes. eauto.
    + destruct (m !! k); reflexivity.
Qed.

Lemma builtAttributes_getAttributes (a : gmap string JsVal) n :
  is_Some (a !! "$id") → builtAttributes (getAttributes a) n = a.
Proof.
  intros [v Hv]. unfold builtAttributes. rewrite setKeys_getAttributes.
  apply map_eq. intros k. rewrite lookup_union.
  destruct (decide (k = "$id")) as [->|Hne].
  - rewrite Hv, lookup_singleton_eq. reflexivity.
  - rewrite lookup_singleton_ne by congruence. destruct (a !! k); reflexivity.
Qed.

Lemma setAll_getAttributes (a : gmap string JsVal) :
  setAll ∅ (jsentries (getAttributes a)) = a.
Proof.
  simpl. apply map_eq. intros k. unfold setAll.
  assert (Hgen : ∀ (l : list (string * JsVal)) (m : gmap string JsVal),
            NoDup l.*1 →
            foldl (λ acc kv, <[kv.1 := kv.2]> acc) m l !! k
            = match assoc k l with Some v => Some v | None => m !! k end).
  { induction l as [|[k' v] l IH]; intros m Hnd; simpl; [reflexivity|].
    apply NoDup_cons in Hnd as (Hk' & Hnd). rewrite (IH _ Hnd).
    destruct (String.eqb k' k) eqn:Hk.
    - apply String.eqb_eq in Hk as ->.
      destruct (assoc k l) as [v'|] eqn:Hv'.
      + exfalso. apply Hk'. apply assoc_elem_of in Hv'.
        apply list_elem_of_fmap. exists (k, v'). split; [reflexivity|exact Hv'].
      + apply lookup_insert_eq.
    - apply String.eqb_neq in Hk. destruct (assoc k l); [reflexivity|].
      apply lookup_insert_ne. exact Hk. }
  rewrite Hgen by apply NoDup_fst_map_to_list.
  rewrite assoc_map_to_list, lookup_empty. destruct (a !! k); reflexivity.
Qed.

Lemma spanOfDelta_spanToDelta sp : spanOfDelta (spanToDelta sp) = Some sp.
Proof.
  destruct sp as [ins a]. unfold spanOfDelta, spanToDelta. simpl.
  destruct (decide (size a = 0)) as [Hempty|Hsome].
  - apply map_size_empty_iff in Hempty as ->. reflexivity.
  - change (jsget (JObj [("insert", JStr ins); ("attributes", getAttributes a)]) "attributes")
      with (getAttributes a).
    cbn [truthy getAttributes]. fold (getAttributes a).
    rewrite setAll_getAttributes. reflexivity.
Qed.

Lemma applyDeltaFresh_toDelta content : applyDeltaFresh (toDelta content) = content.
Proof.
  unfold toDelta, applyDeltaFresh.
  induction content as [|sp content IH]; [reflexivity|].
  rewrite fmap_cons. cbn [omap list_omap].
  rewrite spanOfDelta_spanToDelta. f_equal. exact IH.
Qed.

Lemma serialize_truthy T : truthy (serialize T) = true.
Proof. destruct T; reflexivity. Qed.

Lemma filter_serialize cs : List.filter truthy (List.map serialize cs) = serialize <$> cs.
Proof.
  induction cs as [|c cs IH]; simpl; [reflexivity|].
  rewrite serialize_truthy, IH. reflexivity.
Qed.

Lemma mapM_rebuilt (f : JsVal → M Node) (cs : list Node) :
  Forall (λ c, ∀ s, ∃ s', f (serialize c) s = (Done (retag c), s')) cs →
  ∀ s, ∃ s', mapM f (serialize <$> cs) s = (Done (List.map retag cs), s').
Proof.
  induction 1 as [|c cs Hc _ IH]; intros s; simpl.
  - eexists. reflexivity.
  - destruct (Hc s) as (s1 & Hs1). destruct (IH s1) as (s2 & Hs2).
    exists s2. rewrite (run_bind_done _ _ _ _ _ Hs1), (run_bind_done _ _ _ _ _ Hs2).
    reflexivity.
Qed.

Lemma jsize_serialize_child c cs nm a :
  c ∈ cs → jsize (serialize c) + 3 ≤ jsize (serialize (XmlElement nm a cs)).
Proof.
  intros Hin. simpl. rewrite filter_serialize.
  assert (Hc : jsize (serialize c) ≤ list_sum (List.map jsize (serialize <$> cs))).
  { apply jsize_elem_of, list_elem_of_fmap. exists c. auto. }
  lia.
Qed.

Lemma createNode_text recurse child s :
  nullish child = false →
  truthy (jsget child "text") = true →
  createNode recurse child s
  = (Done (if truthy (jsget (jsget child "text") "delta")
           then XmlText (applyDeltaFresh (jsget (jsget child "text") "delta"))
           else XmlText []), s).
Proof. intros Hchild Htext. unfold createNode. rewrite Hchild, Htext. reflexivity. Qed.

Lemma createNode_serialized T :
  identified T = true →
  ∀ fuel s, jsize (serialize T) ≤ fuel →
    ∃ s', createNode (createNodesFuel fuel) (serialize T) s = (Done (retag T), s').
Proof.
  induction T as [nm a cs IH|content] using Node_forall_ind; intros Hid fuel s Hfuel.
  - simpl in Hid. apply andb_true_iff in Hid as (Ha & Hcs).
    apply bool_decide_eq_true in Ha. apply forallb_Forall in Hcs.
    rewrite createNode_element by reflexivity. cbv zeta.
    change (jsget (serialize (XmlElement nm a cs)) "element")
      with (JObj [("tagName", nm); ("attributes", getAttributes a);
                  ("children", JArr (List.filter truthy (List.map serialize cs)))]).
    change (jsget (JObj [("tagName", nm); ("attributes", getAttributes a);
                         ("children", JArr (List.filter truthy (List.map serialize cs)))])
              "attributes") with (getAttributes a).
    change (jsget (JObj [("tagName", nm); ("attributes", getAttributes a);
                         ("children", JArr (List.filter truthy (List.map serialize cs)))])
              "children") with (JArr (List.filter truthy (List.map serialize cs))).
    change (jsget (JObj [("tagName", nm); ("attributes", getAttributes a);
                         ("children", JArr (List.filter truthy (List.map serialize cs)))])
              "name") with JUndefined.
    rewrite (builtAttributes_getAttributes _ _ Ha). rewrite filter_serialize.
    cbn [truthy newXmlElement nodeNameOf].
    destruct fuel as [|fuel]; [pose proof (jsize_pos (serialize (XmlElement nm a cs))); lia|].
    cbn [createNodesFuel jsiter].
    destruct (mapM_rebuilt (createNode (createNodesFuel fuel)) cs) with (s := afterId (getAttributes a) s)
      as (s' & Hs').
    { rewrite Forall_forall in IH, Hcs |- *. intros c Hin s1. apply IH; [exact Hin|auto|].
      pose proof (jsize_serialize_child c cs nm a Hin). lia. }
    exists s'. rewrite Hs'. simpl. rewrite insertAt_fresh. reflexivity.
  - exists s. rewrite createNode_text by reflexivity.
    change (jsget (jsget (serialize (XmlText content)) "text") "delta")
      with (toDelta content).
    rewrite applyDeltaFresh_toDelta. reflexivity.
Qed.

(** C1, as the code has it.  For a subtree whose every element carries a
    [$id], building from its serialized form gives back a tree with the
    same attribute maps, the [$id] among them unchanged, and the same
    children in the same order, at every depth, and with the same text
    runs.  The tag names are not read back: [serialize] writes a tag under
    [tagName], [createNodes] reads [name], and every rebuilt element has the
    name of an element made without one. *)
Theorem rebuilt_from_serialized T (Hid : identified T = true) :
  ∀ s, ∃ s', createNodes (JArr [serialize T]) s = (Done [retag T], s').
Proof.
  intros s. unfold createNodes. cbn [jsize List.map list_sum createNodesFuel jsiter mapM].
  destruct (createNode_serialized T Hid (jsize (serialize T) + 0) s) as (s' & Hs'); [lia|].
  exists s'. rewrite (run_bind_done _ _ _ _ _ Hs'). reflexivity.
Qed.

(** A change of attribute is notified with the value just written. *)
Lemma y_setAttribute_notifies path s nm a cs k v :
  nodeAt path (y s) = Some (XmlElement nm a cs) →
  y_setAttribute (Attached path) k v s
  = (Done tt,
     committed s path (XmlElement nm (<[k := v]> a) cs)
       {| root := bool_decide (path = []);
          target := default JUndefined (<[k := v]> a !! "$id");
          elements := [];
          attributes := {| attr_set := [{| name := k; value := v |}]; attr_delete := [] |};
          text := [] |}).
Proof.
  intros Hat. unfold y_setAttribute.
  rewrite (run_bind_done _ _ _ _ _ (run_read (Attached path) _ _ Hat)).
  apply (commit_attached path s (XmlElement nm a cs) _
           (λ p, {| ev_target := p; ev_delta := [];
                    ev_keys := [(k, {| action := match a !! k with
                                                 | Some _ => Update
                                                 | None => Add
                                                 end;
                                       oldValue := default JUndefined (a !! k) |})] |})
           _ Hat).
  unfold translate. simpl. rewrite (nodeAt_updateAt _ _ _ _ Hat). simpl.
  rewrite lookup_insert_eq. destruct (a !! k); reflexivity.
Qed.

End Properties.

(** * Further properties of the code *)

Section Further.
Context `{Engine}.

Implicit Types (s : ServerXmlDocument) (doc node : Node) (path : list nat).

(** ** findNode *)

Lemma given_Some id : id ≠ "" → given (Some id) = true.
Proof. intros Hid. simpl. apply negb_true_iff, String.eqb_neq. exact Hid. Qed.

Lemma scanChildren_first find cs i j c child :
  cs !! j = Some c → find c = Some child →
  ∃ k found, scanChildren find cs i = Some ((i + k) :: found)
             ∧ (k < j ∨ (k = j ∧ found = child)).
Proof.
  revert i j. induction cs as [|e rest IH]; intros i j Hc Hfind; [discriminate|].
  simpl. destruct (find e) as [found|] eqn:He.
  - exists 0, found. rewrite Nat.add_0_r. split; [reflexivity|].
    destruct j as [|j]; [|left; lia].
    injection Hc as ->. right. split; [reflexivity|congruence].
  - destruct j as [|j]; [injection Hc as ->; congruence|].
    simpl in Hc. destruct (IH (S i) j Hc Hfind) as (k & found & Hscan & Hk).
    exists (S k), found. split; [rewrite Hscan; do 2 f_equal; lia|].
    destruct Hk as [Hlt|[-> ->]]; [left; lia|right; auto].
Qed.

Lemma findNode_element nodeID nm a cs :
  findNode nodeID (XmlElement nm a cs)
  = if negb (given nodeID) then Some []
    else if strictEqStr (default JUndefined (a !! "$id")) (strOf nodeID) then Some []
         else scanChildren (findNode nodeID) cs 0.
Proof. reflexivity. Qed.

Lemma findNode_first id doc q :
  given (Some id) = true → carriesAt id doc q →
  ∃ path, findNode (Some id) doc = Some path ∧ precedes path q.
Proof.
  intros Hgiven. revert q.
  induction doc as [nm a cs IH|content] using Node_forall_ind;
    intros q (nm' & a' & cs' & Hat & Hid).
  2: { destruct q; simpl in Hat; discriminate. }
  rewrite findNode_element, Hgiven. cbn [negb]. change (strOf (Some id)) with id.
  destruct (strictEqStr (default JUndefined (a !! "$id")) id) eqn:Hroot.
  { exists []. split; [reflexivity|exact I]. }
  destruct q as [|j q].
  { simpl in Hat. injection Hat as <- <- <-. rewrite Hid in Hroot. simpl in Hroot.
    rewrite String.eqb_refl in Hroot. discriminate. }
  simpl in Hat. destruct (cs !! j) as [c|] eqn:Hc; simpl in Hat; [|discriminate].
  rewrite Forall_forall in IH.
  destruct (IH c (list_elem_of_lookup_2 _ _ _ Hc) q) as (child & Hchild & Hprec).
  { exists nm', a', cs'. auto. }
  destruct (scanChildren_first (findNode (Some id)) cs 0 j c child Hc Hchild)
    as (k & found & Hscan & Hk).
  exists (k :: found). split; [exact Hscan|]. simpl.
  destruct Hk as [Hlt|[-> ->]]; [left; exact Hlt|right; auto].
Qed.

(** X1. For a non-empty identifier, [findNode] answers with a position
    exactly when some element of the tree carries the identifier as its
    [$id], and the node at the position it answers with is such an element:
    it never answers with a text run or with an element of another
    identifier. *)
Theorem findNode_finds_what_is_there id doc (Hid : id ≠ "") :
  (∀ path, findNode (Some id) doc = Some path → carriesAt id doc path)
  ∧ ((∃ q, carriesAt id doc q) ↔ ∃ path, findNode (Some id) doc = Some path).
Proof.
  pose proof (given_Some id Hid) as Hgiven.
  assert (Hsound : ∀ path, findNode (Some id) doc = Some path → carriesAt id doc path).
  { intros path Hfind. exact (findNode_sound (Some id) doc path Hgiven Hfind). }
  split; [exact Hsound|]. split.
  - intros (q & Hq). destruct (findNode_first id doc q Hgiven Hq) as (path & Hpath & _).
    eauto.
  - intros (path & Hpath). eauto.
Qed.

(** X2. When several elements carry the identifier, [findNode] answers
    with the first of them in document order: depth first, a node before
    its children, the children from first to last. *)
Theorem findNode_answers_the_first id doc path q
    (Hid : id ≠ "")
    (Hfound : findNode (Some id) doc = Some path)
    (Hother : carriesAt id doc q) :
  precedes path q.
Proof.
  destruct (findNode_first id doc q (given_Some id Hid) Hother) as (path' & Hpath' & Hprec).
  congruence.
Qed.

(** ** Deleting a node *)

Lemma nodeAt_app p q doc : nodeAt (p ++ q) doc = nodeAt p doc ≫= nodeAt q.
Proof.
  revert doc. induction p as [|i p IH]; intros doc; simpl; [reflexivity|].
  destruct doc as [nm a cs|content]; [|reflexivity].
  destruct (cs !! i) as [c|]; simpl; [apply IH|reflexivity].
Qed.

Lemma indexOfSelf_found self cs i :
  self < length cs → indexOfSelf (i + self) cs i = Some (i + self).
Proof.
  revert self i. induction cs as [|c cs IH]; intros self i Hlt; simpl in *; [lia|].
  destruct (decide (i = i + self)) as [Heq|Hne]; [congruence|].
  destruct self as [|self]; [lia|].
  replace (i + S self) with (S i + self) by lia. apply IH. lia.
Qed.

Lemma y_delete_notice path s nm a cs index length :
  nodeAt path (y s) = Some (XmlElement nm a cs) →
  index + length ≤ List.length cs →
  y_delete (Attached path) index length s
  = (Done tt, committed s path (XmlElement nm a (removeRange index length cs))
                (deletionNotice path a index length)).
Proof.
  intros Hat Hle. unfold y_delete.
  rewrite (run_bind_done _ _ _ _ _ (run_read (Attached path) _ _ Hat)).
  destruct (decide (index + length ≤ List.length cs)) as [_|Hno]; [|contradiction].
  apply (commit_attached path s (XmlElement nm a cs) _
           (λ p, {| ev_target := p; ev_delta := deleteDelta index length; ev_keys := [] |})
           _ Hat).
  unfold translate. simpl. rewrite (nodeAt_updateAt _ _ _ _ Hat).
  destruct index, length; reflexivity.
Qed.

Lemma doDelete_attached parent i s nm a cs node :
  nodeAt parent (y s) = Some (XmlElement nm a cs) →
  cs !! i = Some node →
  doDelete (Attached (parent ++ [i])) s
  = (Done (Deleted (nodeNameOf node)),
     committed s parent (XmlElement nm a (take i cs ++ drop (S i) cs))
       (deletionNotice parent a i 1)).
Proof.
  intros Hparent Hchild.
  assert (Hnode : nodeAt (parent ++ [i]) (y s) = Some node).
  { rewrite nodeAt_app, Hparent. simpl. rewrite Hchild. reflexivity. }
  unfold doDelete. destruct (parent ++ [i]) as [|p ath] eqn:Hpath.
  { destruct parent; discriminate. }
  cbv zeta. rewrite <- Hpath in Hnode |- *. rewrite removelast_last, last_last.
  rewrite (run_bind_done _ _ _ _ _ (run_read (Attached parent) _ _ Hparent)).
  rewrite (run_bind_done _ _ _ _ _ (run_read (Attached (parent ++ [i])) _ _ Hnode)).
  cbv beta. cbn [childrenOf].
  pose proof (indexOfSelf_found i cs 0 (lookup_lt_Some _ _ _ Hchild)) as Hself.
  simpl in Hself. rewrite Hself.
  assert (Hle : i + 1 ≤ length cs) by (apply lookup_lt_Some in Hchild; lia).
  rewrite (run_bind_done _ _ _ _ _ (y_delete_notice _ _ _ _ _ _ _ Hparent Hle)).
  unfold removeRange. replace (i + 1) with (S i) by lia. reflexivity.
Qed.

Lemma subActions_deleteNode id path s :
  subActions (Samples.deleteNode id) path s
  = match doDelete (Attached path) s with
    | (Done _, s') => (Done tt, s')
    | (Throw msg, s') => (Throw msg, s')
    end.
Proof.
  unfold subActions, Samples.deleteNode. simpl. rewrite run_bind.
  destruct (doDelete (Attached path) s) as [[r|msg] s']; reflexivity.
Qed.

(** X3. A command that only deletes, addressed to a node other than the
    root: the node is taken out of its parent's child list, nothing else in
    the tree changes, and exactly one notification goes out, for the
    parent, with a [retain] of the node's position (left out at position 0)
    and a [delete] of 1. *)
Theorem delete_removes_the_node id parent i s nm a cs node
    (Htarget : resolve (Samples.deleteNode id) (y s) = Some (parent ++ [i]))
    (Hparent : nodeAt parent (y s) = Some (XmlElement nm a cs))
    (Hchild : cs !! i = Some node) :
  applyChanges [Samples.deleteNode id] s
  = (Done tt,
     committed s parent (XmlElement nm a (take i cs ++ drop (S i) cs))
       (deletionNotice parent a i 1)).
Proof.
  unfold applyChanges. simpl. rewrite run_bind.
  rewrite applyChange_resolved, Htarget, subActions_deleteNode.
  rewrite (doDelete_attached _ _ _ _ _ _ _ Hparent Hchild). reflexivity.
Qed.

(** ** Deleting, inserting and then looking up *)

Lemma carriesAt_after_removal id doc parent i nm a cs q' :
  nodeAt parent doc = Some (XmlElement nm a cs) →
  i < length cs →
  carriesAt id (updateAt parent (XmlElement nm a (take i cs ++ drop (S i) cs)) doc) q' →
  ∃ q, carriesAt id doc q ∧ ¬ (parent ++ [i]) `prefix_of` q.
Proof.
  intros Hat Hlt. revert doc q' Hat.
  induction parent as [|k rest IH]; intros doc q' Hat (nm' & a' & cs' & Hq' & Hid).
  - simpl in Hat. injection Hat as ->. simpl in Hq'. destruct q' as [|j r].
    + simpl in Hq'. injection Hq' as <- <- <-. exists []. split.
      * exists nm, a, cs. auto.
      * intros (rest & Hrest). discriminate.
    + simpl in Hq'.
      destruct ((take i cs ++ drop (S i) cs) !! j) as [c|] eqn:Hc; simpl in Hq'; [|discriminate].
      destruct (decide (j < i)) as [Hj|Hj].
      * rewrite lookup_app_l in Hc by (rewrite length_take; lia).
        rewrite lookup_take_lt in Hc by exact Hj.
        exists (j :: r). split.
        -- exists nm', a', cs'. simpl. rewrite Hc. auto.
        -- intros Hpre. apply prefix_cons_inv_1 in Hpre. lia.
      * rewrite lookup_app_r in Hc by (rewrite length_take; lia).
        rewrite length_take, lookup_drop in Hc.
        replace (i `min` length cs) with i in Hc by lia.
        replace (S i + (j - i)) with (S j) in Hc by lia.
        exists (S j :: r). split.
        -- exists nm', a', cs'. simpl. rewrite Hc. auto.
        -- intros Hpre. apply prefix_cons_inv_1 in Hpre. lia.
  - destruct doc as [nm0 a0 cs0|content]; [|discriminate].
    simpl in Hat. destruct (cs0 !! k) as [c0|] eqn:Hc0; simpl in Hat; [|discriminate].
    destruct q' as [|j r].
    + simpl in Hq'. injection Hq' as <- <- <-. exists []. split.
      * exists nm0, a0, cs0. auto.
      * intros (more & Hmore). discriminate.
    + simpl in Hq'. rewrite list_lookup_alter in Hq'.
      destruct (decide (k = j)) as [<-|Hne].
      * rewrite Hc0 in Hq'. simpl in Hq'.
        destruct (IH c0 r Hat) as (r0 & (nm1 & a1 & cs1 & Hr0 & Hid1) & Hnot).
        { exists nm', a', cs'. auto. }
        exists (k :: r0). split.
        -- exists nm1, a1, cs1. simpl. rewrite Hc0. auto.
        -- intros Hpre. apply Hnot. eapply prefix_cons_inv_2, Hpre.
      * destruct (cs0 !! j) as [c|] eqn:Hc; simpl in Hq'; [|discriminate].
        exists (j :: r). split.
        -- exists nm', a', cs'. simpl. rewrite Hc. auto.
        -- intros Hpre. apply prefix_cons_inv_1 in Hpre. congruence.
Qed.

Lemma resolve_given change id doc :
  nodeID change = Some id → id ≠ "" → resolve change doc = findNode (Some id) doc.
Proof. intros Hnode Hid. unfold resolve. rewrite Hnode, (given_Some id Hid). reflexivity. Qed.

(** X4. Once a node is deleted, its identifier addresses nothing.  When
    the identifier is carried only by the node a command deletes, and by
    nodes below it, the next command of the batch that names the identifier
    fails with "Element was not found for nodeID", the deletion stays, and
    the rest of the batch does not run: the identifier is not handed on to
    the node that moved into the deleted node's place. *)
Theorem deleted_identifier_is_not_found id parent i s nm a cs node change rest
    (Hid : id ≠ "")
    (Htarget : findNode (Some id) (y s) = Some (parent ++ [i]))
    (Hparent : nodeAt parent (y s) = Some (XmlElement nm a cs))
    (Hchild : cs !! i = Some node)
    (Honly : ∀ q, carriesAt id (y s) q → (parent ++ [i]) `prefix_of` q)
    (Hagain : nodeID change = Some id) :
  applyChanges (Samples.deleteNode (Some id) :: change :: rest) s
  = (Throw ("Element was not found for nodeID " +:+ id),
     committed s parent (XmlElement nm a (take i cs ++ drop (S i) cs))
       (deletionNotice parent a i 1)).
Proof.
  rewrite applyChanges_cons, applyChange_resolved.
  rewrite (resolve_given (Samples.deleteNode (Some id)) id _ eq_refl Hid).
  rewrite Htarget, subActions_deleteNode.
  rewrite (doDelete_attached _ _ _ _ _ _ _ Hparent Hchild).
  rewrite applyChanges_cons.
  set (s' := committed s parent _ _).
  assert (Hgone : resolve change (y s') = None).
  { rewrite (resolve_given _ id _ Hagain Hid).
    destruct (findNode (Some id) (y s')) as [q'|] eqn:Hfind; [|reflexivity].
    exfalso. apply (findNode_sound (Some id) _ _ (given_Some id Hid)) in Hfind.
    destruct (carriesAt_after_removal id (y s) parent i nm a cs q' Hparent
                (lookup_lt_Some _ _ _ Hchild) Hfind) as (q & Hq & Hnot).
    apply Hnot, Honly, Hq. }
  rewrite (applyChange_target_missing _ _ Hgone), Hagain. reflexivity.
Qed.

Lemma scanChildren_skip find pre rest i :
  Forall (λ c, find c = None) pre →
  scanChildren find (pre ++ rest) i = scanChildren find rest (i + length pre).
Proof.
  intros Hpre. revert i. induction Hpre as [|c pre Hc _ IH]; intros i; simpl.
  - rewrite Nat.add_0_r. reflexivity.
  - rewrite Hc, IH. f_equal. lia.
Qed.

Lemma scanChildren_alter find (f : Node → Node) cs k c found i :
  Forall (λ c, find c = None) cs →
  cs !! k = Some c →
  find (f c) = Some found →
  scanChildren find (alter f k cs) i = Some ((i + k) :: found).
Proof.
  intros Hcs. revert k i. induction Hcs as [|e cs He _ IH]; intros k i Hk Hfound;
    [discriminate|].
  destruct k as [|k].
  - simpl in Hk. injection Hk as ->.
    change (alter f 0 (c :: cs)) with (f c :: cs). simpl.
    rewrite Hfound, Nat.add_0_r. reflexivity.
  - simpl in Hk. change (alter f (S k) (e :: cs)) with (e :: alter f k cs). simpl.
    rewrite He, (IH k (S i) Hk Hfound). do 2 f_equal. lia.
Qed.

Lemma scanChildren_None find cs i :
  scanChildren find cs i = None → Forall (λ c, find c = None) cs.
Proof.
  revert i. induction cs as [|e cs IH]; intros i; simpl; [constructor|].
  destruct (find e) eqn:He; [discriminate|].
  intros Hscan. constructor; [exact He|eapply IH, Hscan].
Qed.

Lemma findNode_None_element id nm a cs :
  given (Some id) = true →
  findNode (Some id) (XmlElement nm a cs) = None →
  strictEqStr (default JUndefined (a !! "$id")) id = false
  ∧ Forall (λ c, findNode (Some id) c = None) cs.
Proof.
  intros Hgiven. rewrite findNode_element, Hgiven. cbn [negb].
  change (strOf (Some id)) with id.
  destruct (strictEqStr (default JUndefined (a !! "$id")) id); [discriminate|].
  intros Hscan. split; [reflexivity|eapply scanChildren_None, Hscan].
Qed.

Lemma findNode_after_insert id doc path nm a cs index nodes k n :
  given (Some id) = true →
  findNode (Some id) doc = None →
  nodeAt path doc = Some (XmlElement nm a cs) →
  index ≤ length cs →
  nodes !! k = Some n →
  findNode (Some id) n = Some [] →
  (∀ j n', j < k → nodes !! j = Some n' → findNode (Some id) n' = None) →
  findNode (Some id) (updateAt path (XmlElement nm a (insertAt index nodes cs)) doc)
  = Some (path ++ [index + k]).
Proof.
  intros Hgiven Hnew Hat Hle Hk Hn Hearlier. revert doc Hnew Hat.
  induction path as [|k0 rest IH]; intros doc Hnew Hat.
  - simpl in Hat. injection Hat as ->. simpl updateAt.
    apply (findNode_None_element _ _ _ _ Hgiven) in Hnew as (Hroot & Hcs).
    rewrite findNode_element, Hgiven. cbn [negb]. change (strOf (Some id)) with id.
    rewrite Hroot. unfold insertAt.
    rewrite scanChildren_skip by (apply Forall_take; exact Hcs).
    rewrite length_take. replace (0 + index `min` length cs) with index by lia.
    rewrite <- (take_drop_middle nodes k n Hk), <- app_assoc.
    rewrite scanChildren_skip.
    2: { apply Forall_forall. intros n' Hin. apply list_elem_of_lookup in Hin as (j & Hj).
         pose proof (lookup_lt_Some _ _ _ Hj) as Hlt. rewrite length_take in Hlt.
         rewrite lookup_take_lt in Hj by lia. apply (Hearlier j n'); [lia|exact Hj]. }
    rewrite length_take. apply lookup_lt_Some in Hk.
    replace (k `min` length nodes) with k by lia.
    simpl. rewrite Hn. reflexivity.
  - destruct doc as [nm0 a0 cs0|content]; [|discriminate].
    simpl in Hat. destruct (cs0 !! k0) as [c0|] eqn:Hc0; simpl in Hat; [|discriminate].
    apply (findNode_None_element _ _ _ _ Hgiven) in Hnew as (Hroot & Hcs).
    simpl updateAt. rewrite findNode_element, Hgiven. cbn [negb].
    change (strOf (Some id)) with id. rewrite Hroot.
    rewrite (scanChildren_alter _ _ _ _ _ (rest ++ [index + k]) 0 Hcs Hc0).
    + reflexivity.
    + apply IH; [|exact Hat]. rewrite Forall_forall in Hcs.
      apply Hcs. eapply list_elem_of_lookup_2, Hc0.
Qed.

(** X5. A node inserted under an identifier the tree did not have can be
    addressed by it at once: after [doInsertChildren], [findNode] answers
    the identifier with the position the node was inserted at, under the
    element it was inserted into. *)
Theorem inserted_node_is_found id path s nm a cs args index nodes s1 k n
    (Hid : id ≠ "")
    (Hnew : findNode (Some id) (y s) = None)
    (Hnode : nodeAt path (y s) = Some (XmlElement nm a cs))
    (Hpoint : insertionPoint args cs = inr index)
    (Hle : index ≤ length cs)
    (Hnodes : createNodes (ic_children args) s = (Done nodes, s1))
    (Hk : nodes !! k = Some n)
    (Hn : carriesAt id n [])
    (Hearlier : ∀ j n', j < k → nodes !! j = Some n' → findNode (Some id) n' = None) :
  findNode (Some id) (y (doInsertChildren (Attached path) args s).2)
  = Some (path ++ [index + k]).
Proof.
  destruct (doInsertChildren_done _ _ _ _ _ _ _ _ _ Hnode Hpoint Hle Hnodes)
    as (-> & Hy & _).
  simpl. rewrite Hy.
  apply (findNode_after_insert id (y s) path nm a cs index nodes k n (given_Some id Hid));
    try assumption.
  destruct Hn as (nm' & a' & cs' & Hat & Hcarried). simpl in Hat. injection Hat as ->.
  rewrite findNode_element, (given_Some id Hid). cbn [negb]. change (strOf (Some id)) with id.
  rewrite Hcarried. simpl. rewrite String.eqb_refl. reflexivity.
Qed.

(** ** Building nodes *)

(** X6. [doInsertChildren] builds the nodes before the tree is touched:
    when the specs cannot be built, the command fails, with the failure of
    the build once the position is settled, and the tree and the
    notifications sent are what they were. *)
Theorem insertChildren_with_unbuildable_specs path s nm a cs args msg s1
    (Hnode : nodeAt path (y s) = Some (XmlElement nm a cs))
    (Hfail : createNodes (ic_children args) s = (Throw msg, s1)) :
  is_Some (thrown (doInsertChildren (Attached path) args s).1)
  ∧ y (doInsertChildren (Attached path) args s).2 = y s
  ∧ notified (doInsertChildren (Attached path) args s).2 = notified s
  ∧ (∀ index, insertionPoint args cs = inr index →
       doInsertChildren (Attached path) args s = (Throw msg, s1)).
Proof.
  pose proof (createNodes_sameDocument (ic_children args) s) as (Hy & _ & Hn & _).
  rewrite Hfail in Hy, Hn. simpl in Hy, Hn.
  rewrite (doInsertChildren_attached _ _ _ _ _ _ Hnode).
  destruct (insertionPoint args cs) as [msg'|index]; simpl.
  - split; [eexists; reflexivity|]. split; [reflexivity|]. split; [reflexivity|].
    intros index. discriminate.
  - rewrite Hfail. simpl.
    split; [eexists; reflexivity|]. split; [exact Hy|]. split; [exact Hn|].
    intros index' _. reflexivity.
Qed.

Lemma mapM_Forall2 {A B} (f : A → M B) (R : A → B → Prop) (l : list A) :
  (∀ x s b s', f x s = (Done b, s') → R x b) →
  ∀ s bs s', mapM f l s = (Done bs, s') → Forall2 R l bs.
Proof.
  intros Hf. induction l as [|x l IH]; intros s bs s'; simpl.
  - intros [= <- _]. constructor.
  - rewrite run_bind. destruct (f x s) as [[b|msg] s1] eqn:Hx; [|discriminate].
    rewrite run_bind. destruct (mapM f l s1) as [[bs'|msg] s2] eqn:Hl; [|discriminate].
    intros [= <- _]. constructor; [eapply Hf, Hx|eapply IH, Hl].
Qed.

(** X7. On success [createNodes] has built exactly one node per spec, in
    the order of the specs, and has skipped or defaulted none: a spec with
    a [text] gives a text run; any other spec has an [element], and gives
    an element named as [new Y.XmlElement] names it from the spec's [name]:
    by that name, or "UNDEFINED" when the spec has none. *)
Theorem createNodes_one_node_per_spec items s nodes s'
    (Hbuilt : createNodes (JArr items) s = (Done nodes, s')) :
  Forall2 (λ item node,
             if truthy (jsget item "text") then isElement node = false
             else truthy (jsget item "element") = true
                  ∧ isElement node = true
                  ∧ nodeNameOf node
                    = nodeNameOf (newXmlElement (jsget (jsget item "element") "name")))
    items nodes.
Proof.
  unfold createNodes in Hbuilt. cbn [jsize createNodesFuel jsiter] in Hbuilt.
  eapply mapM_Forall2, Hbuilt. clear. intros child s node s'.
  destruct (nullish child) eqn:Hchild.
  { unfold createNode. rewrite Hchild. discriminate. }
  destruct (truthy (jsget child "text")) eqn:Htext.
  { rewrite (createNode_text _ _ _ Hchild Htext). intros [= <- _].
    destruct (truthy (jsget (jsget child "text") "delta")); reflexivity. }
  destruct (truthy (jsget child "element")) eqn:Helement.
  2: { unfold createNode. rewrite Hchild, Htext, Helement. discriminate. }
  rewrite (createNode_element _ _ _ Hchild Htext Helement). cbv zeta.
  destruct (truthy (jsget (jsget child "element") "children")).
  - destruct (createNodesFuel _ _ _) as [[kids|msg] s2]; [|discriminate].
    intros [= <- _]. repeat split.
  - intros [= <- _]. repeat split.
Qed.

(** ** The serializer *)

Lemma serialize_list_inj cs cs' :
  Forall (λ c, ∀ T, serialize c = serialize T → c = T) cs →
  serialize <$> cs = serialize <$> cs' → cs = cs'.
Proof.
  intros Hcs. revert cs'. induction Hcs as [|c cs Hc _ IH]; intros [|c' cs'] Heq;
    try discriminate; [reflexivity|].
  rewrite !fmap_cons in Heq. injection Heq as Hhead Htail.
  f_equal; [apply Hc, Hhead|apply IH, Htail].
Qed.

(** X8. [serialize] loses nothing: two subtrees with the same serialized
    form are the same subtree, in tag names, attribute maps, children and
    text runs. *)
Theorem serialize_is_injective T1 T2 (Hsame : serialize T1 = serialize T2) : T1 = T2.
Proof.
  revert T2 Hsame.
  induction T1 as [nm a cs IH|content] using Node_forall_ind;
    intros [nm' a' cs'|content'] Hsame; cbn [serialize] in Hsame.
  - injection Hsame as Hnm Hattrs Hkids. rewrite !filter_serialize in Hkids.
    subst nm'. f_equal.
    + rewrite <- (list_to_map_to_list a), <- (list_to_map_to_list a'), Hattrs. reflexivity.
    + apply serialize_list_inj; assumption.
  - discriminate.
  - discriminate.
  - injection Hsame as Hdelta. f_equal.
    rewrite <- (applyDeltaFresh_toDelta content), <- (applyDeltaFresh_toDelta content').
    unfold toDelta. rewrite Hdelta. reflexivity.
Qed.

(** ** The observer *)

Lemma numTruthy_true n : numTruthy n = true → ∃ m, n = Some (S m).
Proof. destruct n as [[|m]|]; simpl; try discriminate. eauto. Qed.

Lemma elementDelta_ok delta pushed :
  elementDelta delta = Done pushed → Forall elementEntryOk pushed.
Proof.
  unfold elementDelta. destruct (insertTruthy (d_insert delta)) eqn:Hins.
  - destruct (d_insert delta) as [[nodes|str]|]; simpl.
    + intros [= <-]. repeat constructor.
    + discriminate.
    + intros [= <-]. constructor.
  - destruct (numTruthy (d_delete delta)) eqn:Hdel.
    + intros [= <-]. apply numTruthy_true in Hdel as (m & Hm).
      repeat constructor. unfold elementEntryOk. simpl. rewrite Hm. lia.
    + destruct (numTruthy (d_retain delta)) eqn:Hret; intros [= <-]; [|constructor].
      apply numTruthy_true in Hret as (m & Hm).
      repeat constructor. unfold elementEntryOk. simpl. eauto.
Qed.

Lemma elementDeltas_ok deltas els :
  elementDeltas deltas = Done els → Forall elementEntryOk els.
Proof.
  revert els. induction deltas as [|delta rest IH]; intros els; simpl.
  - intros [= <-]. constructor.
  - destruct (elementDelta delta) as [pushed|msg] eqn:Hpushed; simpl; [|discriminate].
    destruct (elementDeltas rest) as [more|msg]; simpl; [|discriminate].
    intros [= <-]. apply Forall_app. split; [eapply elementDelta_ok, Hpushed|apply IH].
    reflexivity.
Qed.

Lemma textDeltas_ok deltas : Forall textEntryOk (textDeltas deltas).
Proof.
  induction deltas as [|delta rest IH]; simpl; [constructor|].
  apply Forall_app. split; [|exact IH].
  destruct (insertTruthy (d_insert delta)) eqn:Hins.
  - repeat constructor. unfold textEntryOk. simpl.
    destruct (d_insert delta) as [[nodes|str]|]; simpl in *; try discriminate.
    intros [= ->]. discriminate.
  - destruct (numTruthy (d_delete delta)) eqn:Hdel.
    + apply numTruthy_true in Hdel as (m & Hm).
      repeat constructor. unfold textEntryOk. simpl. rewrite Hm. lia.
    + destruct (numTruthy (d_retain delta)) eqn:Hret; [|constructor].
      apply numTruthy_true in Hret as (m & Hm).
      repeat constructor. unfold textEntryOk. simpl. eauto.
Qed.

(** X9. Whatever the feed delivers, a notification is about an element or
    about a text run, never both: either its [text] is empty, or its
    [elements] and its attribute lists are empty and it is not for the
    root.  Each entry it carries reports one change: an insertion, or a
    removal or a skip of at least one item; entries of the feed with nothing
    in them (a [retain] or [delete] of 0, an empty inserted string) are
    dropped, and no entry both inserts and deletes. *)
Theorem notifications_are_well_formed doc (yxmlEvent : YXmlEvent) message
    (Hmessage : translate doc yxmlEvent = Done message) :
  Forall elementEntryOk (elements message)
  ∧ Forall textEntryOk (text message)
  ∧ (text message = []
     ∨ (elements message = [] ∧ attributes message = noAttributes ∧ root message = false)).
Proof.
  unfold translate in Hmessage.
  destruct (nodeAt (ev_target yxmlEvent) doc) as [[nm a cs|content]|]; [| |discriminate].
  - simpl in Hmessage.
    destruct (elementDeltas (ev_delta yxmlEvent)) as [els|msg] eqn:Hels; [|discriminate].
    simpl in Hmessage. injection Hmessage as <-. simpl.
    split; [eapply elementDeltas_ok, Hels|]. split; [constructor|left; reflexivity].
  - injection Hmessage as <-. simpl.
    split; [constructor|]. split; [apply textDeltas_ok|right; auto].
Qed.

Lemma sending_nil s : sending s [] = s.
Proof. destruct s. unfold sending. simpl. rewrite app_nil_r. reflexivity. Qed.

Lemma sending_cons s message messages :
  sending (sending s [message]) messages = sending s (message :: messages).
Proof. unfold sending. simpl. rewrite <- app_assoc. reflexivity. Qed.

Lemma observeDeep_cons yxmlEvent events s :
  observeDeep (yxmlEvent :: events) s
  = match translate (y s) yxmlEvent with
    | Done message => observeDeep events (sending s [message])
    | Throw msg => (Throw msg, s)
    end.
Proof.
  unfold observeDeep. simpl. rewrite !run_bind. unfold getY, lift. simpl.
  rewrite run_bind. destruct (translate (y s) yxmlEvent); reflexivity.
Qed.

(** X10. The observer sends one notification per event of a batch, in the
    order of the events, and merges none.  If an event cannot be
    translated, the notifications of the events before it have been sent,
    none is sent for it or for the events after it, and the failure goes to
    the caller. *)
Theorem observer_notifies_each_event_in_order events messages s
    (Hall : Forall2 (λ yxmlEvent message, translate (y s) yxmlEvent = Done message)
              events messages) :
  observeDeep events s = (Done tt, sending s messages)
  ∧ ∀ failing after msg,
      translate (y s) failing = Throw msg →
      observeDeep (events ++ failing :: after) s = (Throw msg, sending s messages).
Proof.
  revert s messages Hall.
  induction events as [|yxmlEvent events IH]; intros s messages Hall.
  - apply Forall2_nil_inv_l in Hall as ->. rewrite sending_nil. split; [reflexivity|].
    intros failing after msg Hfail. simpl. rewrite observeDeep_cons, Hfail. reflexivity.
  - apply Forall2_cons_inv_l in Hall as (message & more & Hmessage & Hmore & ->).
    destruct (IH (sending s [message]) more Hmore) as (Hdone & Hfails).
    rewrite sending_cons in Hdone. split.
    + rewrite observeDeep_cons, Hmessage. exact Hdone.
    + intros failing after msg Hfail. simpl. rewrite observeDeep_cons, Hmessage.
      rewrite (Hfails failing after msg Hfail). rewrite sending_cons. reflexivity.
Qed.

(** ** Attributes *)

Lemma updateAt_updateAt path n1 n2 doc :
  updateAt path n2 (updateAt path n1 doc) = updateAt path n2 doc.
Proof.
  revert doc. induction path as [|i rest IH]; intros doc; simpl; [reflexivity|].
  destruct doc as [nm a cs|content]; [|reflexivity].
  f_equal. rewrite list_alter_alter_eq. apply list_alter_ext; [|reflexivity].
  intros c _. apply IH.
Qed.

Lemma updateAt_same path doc node :
  nodeAt path doc = Some node → updateAt path node doc = doc.
Proof.
  revert doc. induction path as [|i rest IH]; intros doc Hat; simpl in *; [congruence|].
  destruct doc as [nm0 a0 cs0|content]; [|reflexivity].
  destruct (cs0 !! i) as [c|] eqn:Hc; simpl in Hat; [|discriminate].
  f_equal. rewrite <- (list_alter_id id cs0 i) at 2 by reflexivity.
  apply list_alter_ext; [|reflexivity]. intros c' Hc'. rewrite Hc in Hc'.
  injection Hc' as <-. apply IH. exact Hat.
Qed.

Lemma setAttributes_loop path nm cs bag keys :
  ∀ s a, nodeAt path (y s) = Some (XmlElement nm a cs) →
    ∃ s', forEach keys (λ k, y_setAttribute (Attached path) k (jsget bag k)) s = (Done tt, s')
          ∧ y s' = updateAt path
                     (XmlElement nm (foldl (λ m k, <[k := jsget bag k]> m) a keys) cs) (y s)
          ∧ notified s' = notified s ++ setNotices path bag a keys
          ∧ drawn s' = drawn s.
Proof.
  induction keys as [|k keys IH]; intros s a Hat.
  - exists s. simpl. rewrite app_nil_r. split; [reflexivity|]. split; [|auto].
    symmetry. apply updateAt_same. exact Hat.
  - pose proof (y_setAttribute_notifies path s nm a cs k (jsget bag k) Hat) as Hstep.
    set (s1 := committed s path (XmlElement nm (<[k := jsget bag k]> a) cs) _) in Hstep.
    destruct (IH s1 (<[k := jsget bag k]> a)) as (s' & Hrun & Hy & Hn & Hd).
    { apply (committed_at _ _ _ _ _ Hat). }
    exists s'. simpl. rewrite (run_bind_done _ _ _ _ _ Hstep).
    split; [exact Hrun|]. split; [|split].
    + rewrite Hy. simpl. apply updateAt_updateAt.
    + rewrite Hn. simpl. rewrite <- app_assoc. reflexivity.
    + rewrite Hd. reflexivity.
Qed.

(** X11. [doSetAttributes] on an element of the document: afterwards every
    key of the given object holds the object's value for it, every other
    attribute and the children are as before, and the observer has sent one
    notification per key, in the order of the keys, each a [set] of that key
    with the value just written. *)
Theorem setAttributes_sets_every_key path s nm a cs bag
    (Hnode : nodeAt path (y s) = Some (XmlElement nm a cs)) :
  ∃ s', doSetAttributes (Attached path) bag s = (Done tt, s')
        ∧ y s' = updateAt path (XmlElement nm (setKeys bag a) cs) (y s)
        ∧ notified s' = notified s ++ setNotices path bag a (jskeys bag)
        ∧ ∀ k, setKeys bag a !! k
               = if decide (k ∈ jskeys bag) then Some (jsget bag k) else a !! k.
Proof.
  destruct (setAttributes_loop path nm cs bag (jskeys bag) s a Hnode)
    as (s' & Hrun & Hy & Hn & _).
  exists s'. split; [exact Hrun|]. split; [exact Hy|]. split; [exact Hn|].
  apply setKeys_lookup.
Qed.

Lemma y_removeAttribute_attached path s nm a cs k :
  nodeAt path (y s) = Some (XmlElement nm a cs) →
  ∃ message,
    y_removeAttribute (Attached path) k s
    = (Done tt, committed s path (XmlElement nm (delete k a) cs) message).
Proof.
  intros Hat. unfold y_removeAttribute.
  rewrite (run_bind_done _ _ _ _ _ (run_read (Attached path) _ _ Hat)).
  eexists.
  apply (commit_attached path s (XmlElement nm a cs) _
           (λ p, {| ev_target := p; ev_delta := [];
                    ev_keys := match a !! k with
                               | Some old => [(k, {| action := Delete; oldValue := old |})]
                               | None => []
                               end |})
           _ Hat).
  unfold translate. simpl. rewrite (nodeAt_updateAt _ _ _ _ Hat). reflexivity.
Qed.

Lemma removeKeys_lookup names (a : gmap string JsVal) k :
  removeKeys names a !! k = if decide (k ∈ names) then None else a !! k.
Proof.
  unfold removeKeys. revert a. induction names as [|k' names IH]; intros a; cbn [foldl].
  - rewrite decide_False by (apply not_elem_of_nil). reflexivity.
  - rewrite IH. destruct (decide (k ∈ names)) as [Hin|Hout].
    + rewrite decide_True by (right; exact Hin). reflexivity.
    + destruct (decide (k = k')) as [->|Hne].
      * rewrite decide_True by left. apply lookup_delete_eq.
      * rewrite decide_False by (rewrite elem_of_cons; tauto).
        apply lookup_delete_ne. congruence.
Qed.

(** X12. [doRemoveAttributes] on an element of the document never fails,
    also for a name the element does not have: afterwards none of the
    listed names is an attribute, and every other attribute and the
    children are as before. *)
Theorem removeAttributes_removes_every_name path s nm a cs names
    (Hnode : nodeAt path (y s) = Some (XmlElement nm a cs)) :
  ∃ s', doRemoveAttributes (Attached path) names s = (Done tt, s')
        ∧ y s' = updateAt path (XmlElement nm (removeKeys names a) cs) (y s)
        ∧ ∀ k, removeKeys names a !! k = if decide (k ∈ names) then None else a !! k.
Proof.
  assert (Hloop : ∀ s a, nodeAt path (y s) = Some (XmlElement nm a cs) →
            ∃ s', doRemoveAttributes (Attached path) names s = (Done tt, s')
                  ∧ y s' = updateAt path (XmlElement nm (removeKeys names a) cs) (y s)).
  { unfold doRemoveAttributes, removeKeys. clear. induction names as [|k names IH]; intros s a Hat.
    - exists s. split; [reflexivity|]. simpl. symmetry. apply updateAt_same. exact Hat.
    - destruct (y_removeAttribute_attached path s nm a cs k Hat) as (message & Hstep).
      set (s1 := committed s path (XmlElement nm (delete k a) cs) message) in Hstep.
      destruct (IH s1 (delete k a)) as (s' & Hrun & Hy).
      { apply (committed_at _ _ _ _ _ Hat). }
      exists s'. simpl. rewrite (run_bind_done _ _ _ _ _ Hstep).
      split; [exact Hrun|]. rewrite Hy. simpl. apply updateAt_updateAt. }
  destruct (Hloop s a Hnode) as (s' & Hrun & Hy).
  exists s'. split; [exact Hrun|]. split; [exact Hy|]. apply removeKeys_lookup.
Qed.

(** ** Text commands *)






(** ** Deleting children by position *)


(** ** Batches and targets *)

(** X15. A batch applied whole is its parts applied one after the other:
    the second part starts from the state the first part leaves, and does
    not run when the first part fails.  The empty batch does nothing. *)
Theorem batches_compose (first second : list AppliedChange) s :
  applyChanges (first ++ second) s
  = match applyChanges first s with
    | (Done _, s1) => applyChanges second s1
    | (Throw msg, s1) => (Throw msg, s1)
    end
  ∧ applyChanges [] s = (Done tt, s).
Proof.
  split; [|reflexivity]. unfold applyChanges. rewrite forEach_app, run_bind.
  destruct (forEach first applyChange s) as [[[]|msg] s1]; reflexivity.
Qed.

(** X16. The node a command resolves to is always an element, given that
    the root is one: an identifier is only ever compared with the [$id] of
    elements.  So the checks of [applyChanges] for a text-run target pass
    for the target as resolved. *)
Theorem command_target_is_an_element change s path
    (Hroot : isElement (y s) = true)
    (Htarget : resolve change (y s) = Some path) :
  (∃ nm a cs, nodeAt path (y s) = Some (XmlElement nm a cs))
  ∧ ∀ msg, requireElement (Attached path) msg s = (Done tt, s).
Proof.
  assert (Helement : ∃ nm a cs, nodeAt path (y s) = Some (XmlElement nm a cs)).
  { unfold resolve in Htarget. destruct (given (nodeID change)) eqn:Hgiven.
    - destruct (findNode_sound _ _ _ Hgiven Htarget) as (nm & a & cs & Hat & _). eauto.
    - injection Htarget as <-. simpl. destruct (y s) as [nm a cs|content]; [eauto|discriminate]. }
  split; [exact Helement|]. intros msg. destruct Helement as (nm & a & cs & Hat).
  unfold requireElement.
  rewrite (run_bind_done _ _ _ _ _ (run_read (Attached path) _ _ Hat)). reflexivity.
Qed.

End Further.

(** ** The entry point *)

Lemma string_of_list_byte_app (l1 l2 : list Byte.byte) :
  String.string_of_list_byte (l1 ++ l2)
  = String.string_of_list_byte l1 +:+ String.string_of_list_byte l2.
Proof.
  induction l1 as [|b l1 IH]; [reflexivity|].
  change (String (Ascii.ascii_of_byte b) (String.string_of_list_byte (l1 ++ l2))
          = String (Ascii.ascii_of_byte b)
              (String.string_of_list_byte l1 +:+ String.string_of_list_byte l2)).
  f_equal. exact IH.
Qed.

Lemma append_nil_r (str : string) : str +:+ "" = str.
Proof.
  induction str as [|c str IH]; [reflexivity|].
  change (String c (str +:+ "") = String c str). f_equal. exact IH.
Qed.

Lemma append_assoc (s1 s2 s3 : string) : (s1 +:+ s2) +:+ s3 = s1 +:+ (s2 +:+ s3).
Proof.
  induction s1 as [|c s1 IH]; [reflexivity|].
  change (String c ((s1 +:+ s2) +:+ s3) = String c (s1 +:+ (s2 +:+ s3))). f_equal. exact IH.
Qed.

Lemma chunkSize_pos : 0 < chunkSize.
Proof. unfold chunkSize. lia. Qed.

(** The loop from index [i] appends the bytes from [i] on, whatever the
    chunk size cuts them into, given a round per byte left. *)
Lemma chunkLoop_all fuel i bytes binary :
  length bytes - i ≤ fuel →
  chunkLoop fuel i bytes binary = binary +:+ fromCharCodes (drop i bytes).
Proof.
  pose proof chunkSize_pos as Hpos. revert i binary.
  induction fuel as [|fuel IH]; intros i binary Hfuel.
  - rewrite drop_ge by lia. simpl. rewrite append_nil_r. reflexivity.
  - simpl. destruct (decide (i < length bytes)) as [Hlt|Hge].
    + rewrite IH by lia. rewrite append_assoc. f_equal.
      unfold fromCharCodes, subarray. rewrite <- string_of_list_byte_app.
      replace (i + chunkSize - i) with chunkSize by lia.
      rewrite <- drop_drop, take_drop. reflexivity.
    + rewrite drop_ge by lia. simpl. rewrite append_nil_r. reflexivity.
Qed.

Lemma chunkLoop_whole bytes : chunkLoop (length bytes) 0 bytes "" = fromCharCodes bytes.
Proof. rewrite chunkLoop_all by lia. rewrite drop_0. reflexivity. Qed.

(** X17. The chunks do not show: [uint8ArrayToBase64] gives [btoa] the
    binary string of all the bytes, in order, each byte as the character of
    that code, however many chunks of [0x8000] bytes the loop takes. *)
Theorem chunking_is_invisible (btoa : string → string) (bytes : list Byte.byte) :
  uint8ArrayToBase64 btoa bytes = btoa (String.string_of_list_byte bytes).
Proof.
  unfold uint8ArrayToBase64. rewrite chunkLoop_whole. reflexivity.
Qed.

Lemma charCodes_fromCharCodes bytes : charCodes (fromCharCodes bytes) = bytes.
Proof. apply String.list_byte_of_string_of_list_byte. Qed.

(** X18. Bytes survive the trip through text: where [atob] undoes [btoa] on
    the binary string of the bytes, [base64ToUint8Array] gives back the
    bytes [uint8ArrayToBase64] was given, all of them and in order. *)
Theorem bytes_round_trip (btoa : string → string) (atob : string → Outcome string)
    (bytes : list Byte.byte)
    (Hinverse : atob (btoa (fromCharCodes bytes)) = Done (fromCharCodes bytes)) :
  base64ToUint8Array atob (uint8ArrayToBase64 btoa bytes) = Done bytes.
Proof.
  unfold base64ToUint8Array, uint8ArrayToBase64. rewrite chunkLoop_whole, Hinverse.
  simpl. rewrite charCodes_fromCharCodes. reflexivity.
Qed.

Section RegistryProperties.
Context `{Engine}.

(** X19. A document that was unregistered is gone for good: the call
    succeeds for a registered identifier, after it [applyChanges] for that
    identifier fails with "cannot apply changes, document was not
    registered", a second [unregisterDocument] fails with "document was not
    registered", both leaving the registry as it is, and the documents
    under other identifiers are untouched. *)
Theorem unregistered_document_is_gone id (r : Entrypoint.Registry) update
    (Hregistered : is_Some (Entrypoint.documents r !! id))
    (Hupdate : Entrypoint.documentID update = id) :
  (Entrypoint.unregisterDocument id r).1 = Done tt
  ∧ Entrypoint.applyChanges update (Entrypoint.unregisterDocument id r).2
    = (Throw ("cannot apply changes, document was not registered " +:+ id),
       (Entrypoint.unregisterDocument id r).2)
  ∧ Entrypoint.unregisterDocument id (Entrypoint.unregisterDocument id r).2
    = (Throw ("document was not registered " +:+ id), (Entrypoint.unregisterDocument id r).2)
  ∧ ∀ id', id' ≠ id →
      Entrypoint.documents (Entrypoint.unregisterDocument id r).2 !! id'
      = Entrypoint.documents r !! id'.
Proof.
  destruct Hregistered as [server Hserver].
  assert (Hgone : Entrypoint.unregisterDocument id r
                  = (Done tt, {| Entrypoint.documents := delete id (Entrypoint.documents r);
                                 Entrypoint.protocols := Entrypoint.protocols r ∖ {[id]} |})).
  { unfold Entrypoint.unregisterDocument. rewrite Hserver. reflexivity. }
  rewrite Hgone. cbn [fst snd].
  split; [reflexivity|]. split; [|split].
  - unfold Entrypoint.applyChanges. simpl. rewrite Hupdate, lookup_delete_eq. reflexivity.
  - unfold Entrypoint.unregisterDocument. simpl. rewrite lookup_delete_eq. reflexivity.
  - intros id' Hne. apply lookup_delete_ne. congruence.
Qed.

End RegistryProperties.


(** * The properties on the sample engine *)

Import SampleEngine Samples.

(** The event on the root of [titled]: the updated key is reported with the
    value the element has now, not the one the event carries, and the
    deleted key by its name. *)
Lemma attribute_changes_report_current_values_witness :
  nodeAt (ev_target keysEvent) titled = Some titled
  ∧ translate titled keysEvent = Done keysNotice
  ∧ {| name := "title"; value := JStr "new" |} ∈ attr_set (attributes keysNotice)
  ∧ "lang" ∈ attr_delete (attributes keysNotice).
Proof.
  assert (Htarget : nodeAt (ev_target keysEvent) titled = Some titled) by reflexivity.
  assert (Hmessage : translate titled keysEvent = Done keysNotice)
    by (vm_compute; reflexivity).
  destruct (attribute_changes_report_current_values _ _ _ _ _ _ Htarget Hmessage)
    as (Hset & Hdelete & _).
  split; [exact Htarget|]. split; [exact Hmessage|]. split.
  - apply (Hset "title" {| action := Update; oldValue := JStr "old" |});
      [left|discriminate].
  - apply (Hdelete "lang" {| action := Delete; oldValue := JStr "en" |});
      [right; left|reflexivity].
Defined.

(** [insertText], [formatText] and [deleteText] on the root of
    [threeParas], which is no text element. *)
Lemma text_commands_need_a_text_element_witness :
  deref (y (openDocument threeParas)) (Attached []) = Some threeParas
  ∧ nodeNameOf threeParas ≠ JStr "text"
  ∧ doInsertText (Attached []) {| it_index := 0; it_text := "x"; it_attributes := JUndefined |}
      (openDocument threeParas)
    = (Throw "Can only insert text in a text node.", openDocument threeParas)
  ∧ doFormatText (Attached []) {| ft_from := 0; ft_length := 1; ft_attributes := JUndefined |}
      (openDocument threeParas)
    = (Throw "Can only format text in a text node.", openDocument threeParas)
  ∧ doDeleteText (Attached []) {| dt_index := 0; dt_length := 1 |} (openDocument threeParas)
    = (Throw "Can only delete text in a text node.", openDocument threeParas).
Proof.
  assert (Hnode : deref (y (openDocument threeParas)) (Attached []) = Some threeParas)
    by reflexivity.
  assert (Htag : nodeNameOf threeParas ≠ JStr "text") by discriminate.
  destruct (text_commands_need_a_text_element _ _ _ Hnode Htag) as (Hins & Hfmt & Hdel).
  split; [exact Hnode|]. split; [exact Htag|]. split; [apply Hins|].
  split; [apply Hfmt|apply Hdel].
Defined.

(** [{delete: true}] with no [nodeID], and with the root's own. *)
Lemma deleting_the_root_fails_witness :
  c_delete (deleteNode (Some "root-id")) = true
  ∧ resolve (deleteNode (Some "root-id")) (y (openDocument threeParas)) = Some []
  ∧ applyChanges [deleteNode (Some "root-id")] (openDocument threeParas)
    = (Throw "Cannot delete top-level element.", openDocument threeParas).
Proof.
  split; [reflexivity|]. split; [vm_compute; reflexivity|].
  apply deleting_the_root_fails; [reflexivity|vm_compute; reflexivity].
Defined.

(** The batch [insert at the root, delete a node that is not there, delete
    "a"]: it fails at the second command, the insertion stays, and "a" is
    still there. *)
Lemma batch_stops_at_first_failure_witness :
  applyChanges [insertOnly None afterA] (openDocument threeParas)
  = (Done tt, (applyChanges [insertOnly None afterA] (openDocument threeParas)).2)
  ∧ applyChange (deleteNode (Some "missing"))
      (applyChanges [insertOnly None afterA] (openDocument threeParas)).2
    = (Throw "Element was not found for nodeID missing",
       (applyChanges [insertOnly None afterA] (openDocument threeParas)).2)
  ∧ applyChanges ([insertOnly None afterA]
                  ++ deleteNode (Some "missing") :: [deleteNode (Some "a")])
      (openDocument threeParas)
    = (Throw "Element was not found for nodeID missing",
       (applyChanges [insertOnly None afterA] (openDocument threeParas)).2)
  ∧ childrenOf (y (applyChanges [insertOnly None afterA] (openDocument threeParas)).2)
    = [para "a"; divBuilt "c1"; para "b"; para "c"].
Proof.
  assert (Hbefore : applyChanges [insertOnly None afterA] (openDocument threeParas)
            = (Done tt, (applyChanges [insertOnly None afterA] (openDocument threeParas)).2))
    by (vm_compute; reflexivity).
  assert (Hfailing : applyChange (deleteNode (Some "missing"))
            (applyChanges [insertOnly None afterA] (openDocument threeParas)).2
          = (Throw "Element was not found for nodeID missing",
             (applyChanges [insertOnly None afterA] (openDocument threeParas)).2))
    by (vm_compute; reflexivity).
  split; [exact Hbefore|]. split; [exact Hfailing|]. split.
  - apply (batch_stops_at_first_failure _ [deleteNode (Some "a")] _ _ _ _ _ Hbefore Hfailing).
  - vm_compute. reflexivity.
Defined.



(** C7, on the code.  [{after: "a", length: 1}] on the root of
    [threeParas], whose children are "a", "b", "c": the command removes
    "a" itself and leaves "b" and "c".  The child immediately after "a" is
    "b"; removing that one would leave "a" and "c". *)
Theorem deleteChildren_after_removes_the_anchor :
  (applyChanges [deleteChildrenOf None oneAfterA] (openDocument threeParas)).1 = Done tt
  ∧ childrenOf (y (applyChanges [deleteChildrenOf None oneAfterA]
                     (openDocument threeParas)).2)
    = [para "b"; para "c"].
Proof. split; vm_compute; reflexivity. Qed.

(** The spec [{element: {name: "div", attributes: {id: ""}}}]: the element
    has an identifier, the empty one the spec gave. *)
Lemma built_elements_carry_an_id_witness :
  createNode (createNodesFuel 3) (divSpec (JStr "")) (openDocument threeParas)
  = (Done (divBuilt ""), openDocument threeParas)
  ∧ isElement (divBuilt "") = true
  ∧ identified (divBuilt "") = true
  ∧ getAttribute (divBuilt "") "$id" = JStr "".
Proof.
  assert (Hbuilt : createNode (createNodesFuel 3) (divSpec (JStr "")) (openDocument threeParas)
                   = (Done (divBuilt ""), openDocument threeParas))
    by (vm_compute; reflexivity).
  destruct (built_elements_carry_an_id 3 _ _ _ _ Hbuilt eq_refl) as (Hid & Hvalue).
  split; [exact Hbuilt|]. split; [reflexivity|]. split; [exact Hid|].
  rewrite Hvalue. vm_compute. reflexivity.
Defined.

(** C9 fails on [{element: {name: "div", attributes: {id: ""}}}]: the
    element built carries the empty string as its [$id]. *)
Lemma empty_id_is_kept :
  ¬ buildsIdentified (JArr [divSpec (JStr "")]) (openDocument threeParas).
Proof.
  intros Hclaim.
  assert (Hrun : createNodes (JArr [divSpec (JStr "")]) (openDocument threeParas)
                 = (Done [divBuilt ""], openDocument threeParas))
    by (vm_compute; reflexivity).
  apply Hclaim in Hrun. apply Forall_inv in Hrun.
  destruct (Hrun eq_refl) as (id & Hid & Hne).
  vm_compute in Hid. injection Hid as <-. apply Hne. reflexivity.
Qed.

(** The serialized form of [threeParas] builds into the same tree but for
    the tag names. *)
Lemma rebuilt_from_serialized_witness :
  identified threeParas = true
  ∧ ∃ s', createNodes (JArr [serialize threeParas]) (openDocument threeParas)
          = (Done [retag threeParas], s').
Proof.
  split; [reflexivity|]. apply rebuilt_from_serialized. reflexivity.
Defined.

(** C1 fails on the paragraph "a": what is built from its serialized form
    is an element named "UNDEFINED", not "p". *)
Lemma tag_name_is_not_read_back : ¬ roundTrips (para "a").
Proof.
  intros Hclaim. destruct (Hclaim (openDocument threeParas)) as (s' & Hrun).
  vm_compute in Hrun. discriminate Hrun.
Qed.

(** * The repository's tests, on the model

    Each test of [server-xml-document.spec.ts] with what it expects. *)

(** "notifies about inserted child elements" *)
Example test_notifies_inserted_child :
  notified (y_insert (Attached []) 0 [XmlElement (JStr "div") {["$id" := JStr "child-1"]} []]
              (openDocument emptyRoot)).2
  = [{| root := true;
        target := JUndefined;
        elements :=
          [{| cne_retain := None;
              cne_insert :=
                Some [JObj [("element",
                             JObj [("tagName", JStr "div");
                                   ("attributes", JObj [("$id", JStr "child-1")]);
                                   ("children", JArr [])])]];
              cne_delete := None |}];
        attributes := noAttributes;
        text := [] |}].
Proof. vm_compute. reflexivity. Qed.

(** "notifies about attribute changes" *)
Example test_notifies_attribute_change :
  notified (y_setAttribute (Attached []) "foo" (JStr "bar") (openDocument rootOnly)).2
  = [{| root := true;
        target := JStr "root-id";
        elements := [];
        attributes := {| attr_set := [{| name := "foo"; value := JStr "bar" |}];
                         attr_delete := [] |};
        text := [] |}].
Proof. vm_compute. reflexivity. Qed.

(** "notifies about text insertion in a text node" *)
Example test_notifies_text_insertion :
  notified (y_text (Attached [0; 0]) (λ content, textInsert content 0 "Hello World" JUndefined)
              (openDocument (textUnderRoot "text-1" []))).2
  = [{| root := false;
        target := JStr "text-1";
        elements := [];
        attributes := noAttributes;
        text := [{| cnt_retain := None; cnt_insert := Some (InsText "Hello World");
                    cnt_delete := None; cnt_attributes := None |}] |}].
Proof. vm_compute. reflexivity. Qed.

(** "applies child element insertion via applyChanges()" *)
Example test_applies_child_insertion :
  childrenOf (y (applyChanges [insertMyChild] (openDocument rootOnly)).2)
  = [XmlElement (JStr "my-child")
       {["$id" := JStr "child-id-123"; "title" := JStr "ChildTitle";
         "id" := JStr "child-id-123"]} []].
Proof. vm_compute. reflexivity. Qed.

(** "applies text insertion via applyChanges()" *)
Example test_applies_text_insertion :
  nodeAt [0; 0]
    (y (applyChanges [insertTextAt "text-xyz" 0 "Hello "; insertTextAt "text-xyz" 6 "World"]
          (openDocument (textUnderRoot "text-xyz" []))).2)
  = Some (XmlText [{| sp_insert := "Hello "; sp_attributes := ∅ |};
                   {| sp_insert := "World"; sp_attributes := ∅ |}]).
Proof. vm_compute. reflexivity. Qed.

(** "can format text via applyChanges()" *)
Example test_formats_text :
  nodeAt [0; 0]
    (y (applyChanges [formatTextAt "txt-123" 6 5 (JObj [("bold", JBool true)])]
          (openDocument (textUnderRoot "txt-123"
                           [{| sp_insert := "Hello World"; sp_attributes := ∅ |}]))).2)
  = Some (XmlText [{| sp_insert := "Hello "; sp_attributes := ∅ |};
                   {| sp_insert := "World"; sp_attributes := {["bold" := JBool true]} |}]).
Proof. vm_compute. reflexivity. Qed.

(** "can delete text via applyChanges()" *)
Example test_deletes_text :
  nodeAt [0; 0]
    (y (applyChanges [deleteTextAt "txt-abc" 6 5]
          (openDocument (textUnderRoot "txt-abc"
                           [{| sp_insert := "Hello World"; sp_attributes := ∅ |}]))).2)
  = Some (XmlText [{| sp_insert := "Hello "; sp_attributes := ∅ |}]).
Proof. vm_compute. reflexivity. Qed.

(** "can delete the entire element via applyChanges()" *)
Example test_deletes_element :
  applyChanges [deleteNode (Some "a")] (openDocument threeParas)
  = (Done tt, (applyChanges [deleteNode (Some "a")] (openDocument threeParas)).2)
  ∧ childrenOf (y (applyChanges [deleteNode (Some "a")] (openDocument threeParas)).2)
    = [para "b"; para "c"].
Proof. split; vm_compute; reflexivity. Qed.

(** * Edges of the properties above *)

(** An element without a [$id] does not come back as it was: the rebuilt
    one has drawn an identifier. *)
Example unidentified_element_gains_an_id :
  (createNodes (JArr [serialize (XmlElement (JStr "p") ∅ [])]) (openDocument emptyRoot)).1
  = Done [XmlElement (JStr "UNDEFINED") {["$id" := JStr "uuid-0"]} []].
Proof. vm_compute. reflexivity. Qed.

(** An empty [after] does not pass [if (after)]: the command goes by its
    [index]. *)
Example empty_after_counts_as_absent :
  childrenOf (y (doInsertChildren (Attached [])
                   {| ic_after := Some ""; ic_index := Some 1;
                      ic_children := JArr [divSpec (JStr "c1")] |}
                   (openDocument threeParas)).2)
  = [para "a"; divBuilt "c1"; para "b"; para "c"].
Proof. vm_compute. reflexivity. Qed.

(** A position past the end is refused by the engine, and nothing is
    inserted. *)
Example index_past_the_end_fails :
  doInsertChildren (Attached [])
    {| ic_after := None; ic_index := Some 4; ic_children := JArr [] |}
    (openDocument threeParas)
  = (Throw lengthExceeded, openDocument threeParas).
Proof. vm_compute. reflexivity. Qed.

(** ** Instances of the further properties *)

Import Cases.

(** ["b"] in [threeParas]: found at child 1, which carries it. *)
Lemma findNode_finds_what_is_there_witness :
  "b" ≠ ""
  ∧ findNode (Some "b") threeParas = Some [1]
  ∧ carriesAt "b" threeParas [1].
Proof.
  assert (Hid : "b" ≠ "") by discriminate.
  assert (Hfound : findNode (Some "b") threeParas = Some [1]) by reflexivity.
  split; [exact Hid|]. split; [exact Hfound|].
  exact (proj1 (findNode_finds_what_is_there "b" threeParas Hid) [1] Hfound).
Defined.

(** ["a"] in [twins], carried by children 0 and 2: child 0 is the answer. *)
Lemma findNode_answers_the_first_witness :
  "a" ≠ ""
  ∧ findNode (Some "a") twins = Some [0]
  ∧ carriesAt "a" twins [2]
  ∧ precedes [0] [2].
Proof.
  assert (Hid : "a" ≠ "") by discriminate.
  assert (Hfound : findNode (Some "a") twins = Some [0]) by reflexivity.
  assert (Hother : carriesAt "a" twins [2]).
  { exists (JStr "p"), {["$id" := JStr "a"]}, []. split; [reflexivity|reflexivity]. }
  split; [exact Hid|]. split; [exact Hfound|]. split; [exact Hother|].
  exact (findNode_answers_the_first "a" twins [0] [2] Hid Hfound Hother).
Defined.

(** [{nodeID: "b", delete: true}] on [threeParas]: "a" and "c" stay, and
    the root is told of one child gone at position 1. *)
Lemma delete_removes_the_node_witness :
  resolve (deleteNode (Some "b")) (y (openDocument threeParas)) = Some [1]
  ∧ nodeAt [] (y (openDocument threeParas))
    = Some (XmlElement (JStr "UNDEFINED") {["$id" := JStr "root-id"]}
              [para "a"; para "b"; para "c"])
  ∧ applyChanges [deleteNode (Some "b")] (openDocument threeParas)
    = (Done tt,
       committed (openDocument threeParas) []
         (XmlElement (JStr "UNDEFINED") {["$id" := JStr "root-id"]} [para "a"; para "c"])
         (deletionNotice [] {["$id" := JStr "root-id"]} 1 1)).
Proof.
  assert (Htarget : resolve (deleteNode (Some "b")) (y (openDocument threeParas))
                    = Some ([] ++ [1])) by reflexivity.
  assert (Hparent : nodeAt [] (y (openDocument threeParas))
                    = Some (XmlElement (JStr "UNDEFINED") {["$id" := JStr "root-id"]}
                              [para "a"; para "b"; para "c"])) by reflexivity.
  split; [exact Htarget|]. split; [exact Hparent|].
  exact (delete_removes_the_node (Some "b") [] 1 (openDocument threeParas) _ _ _ (para "b")
           Htarget Hparent eq_refl).
Defined.

(** [{nodeID: "b", delete: true}] twice on [threeParas]: the second
    command finds no "b". *)
Lemma deleted_identifier_is_not_found_witness :
  findNode (Some "b") (y (openDocument threeParas)) = Some [1]
  ∧ applyChanges [deleteNode (Some "b"); deleteNode (Some "b")] (openDocument threeParas)
    = (Throw "Element was not found for nodeID b",
       committed (openDocument threeParas) []
         (XmlElement (JStr "UNDEFINED") {["$id" := JStr "root-id"]} [para "a"; para "c"])
         (deletionNotice [] {["$id" := JStr "root-id"]} 1 1)).
Proof.
  assert (Hid : "b" ≠ "") by discriminate.
  assert (Htarget : findNode (Some "b") (y (openDocument threeParas)) = Some ([] ++ [1]))
    by reflexivity.
  assert (Hparent : nodeAt [] (y (openDocument threeParas))
                    = Some (XmlElement (JStr "UNDEFINED") {["$id" := JStr "root-id"]}
                              [para "a"; para "b"; para "c"])) by reflexivity.
  assert (Honly : ∀ q, carriesAt "b" (y (openDocument threeParas)) q
                       → ([] ++ [1]) `prefix_of` q).
  { intros q (nm & a & cs & Hat & Hcarries).
    destruct q as [|[|[|[|i]]] q]; [| |exists q; reflexivity| |];
      try (destruct q as [|j q]); vm_compute in Hat; try discriminate Hat;
      injection Hat as <- <- <-; vm_compute in Hcarries; discriminate Hcarries. }
  split; [exact Htarget|].
  exact (deleted_identifier_is_not_found "b" [] 1 (openDocument threeParas) _ _ _ (para "b")
           (deleteNode (Some "b")) [] Hid Htarget Hparent eq_refl Honly eq_refl).
Defined.

(** [{insertChildren: afterA}] on the root of [threeParas]: the new element
    "c1" is found at child 1, right after "a". *)
Lemma inserted_node_is_found_witness :
  findNode (Some "c1") (y (openDocument threeParas)) = None
  ∧ insertionPoint afterA [para "a"; para "b"; para "c"] = inr 1
  ∧ createNodes (ic_children afterA) (openDocument threeParas)
    = (Done [divBuilt "c1"], openDocument threeParas)
  ∧ findNode (Some "c1")
      (y (doInsertChildren (Attached []) afterA (openDocument threeParas)).2)
    = Some [1].
Proof.
  assert (Hid : "c1" ≠ "") by discriminate.
  assert (Hnew : findNode (Some "c1") (y (openDocument threeParas)) = None)
    by reflexivity.
  assert (Hnode : nodeAt [] (y (openDocument threeParas))
                  = Some (XmlElement (JStr "UNDEFINED") {["$id" := JStr "root-id"]}
                            [para "a"; para "b"; para "c"])) by reflexivity.
  assert (Hpoint : insertionPoint afterA [para "a"; para "b"; para "c"] = inr 1)
    by reflexivity.
  assert (Hle : 1 ≤ length [para "a"; para "b"; para "c"]) by (simpl; lia).
  assert (Hnodes : createNodes (ic_children afterA) (openDocument threeParas)
                   = (Done [divBuilt "c1"], openDocument threeParas))
    by reflexivity.
  assert (Hn : carriesAt "c1" (divBuilt "c1") []).
  { exists (JStr "div"), {["$id" := JStr "c1"; "id" := JStr "c1"]}, [].
    split; [reflexivity|reflexivity]. }
  assert (Hearlier : ∀ j n', j < 0 → [divBuilt "c1"] !! j = Some n'
                             → findNode (Some "c1") n' = None) by (intros; lia).
  split; [exact Hnew|]. split; [exact Hpoint|]. split; [exact Hnodes|].
  exact (inserted_node_is_found "c1" [] (openDocument threeParas) _ _ _ afterA 1
           [divBuilt "c1"] _ 0 (divBuilt "c1")
           Hid Hnew Hnode Hpoint Hle Hnodes eq_refl Hn Hearlier).
Defined.

(** [{insertChildren: brokenSpecs}] on the root of [threeParas]: the first
    spec is fine, the second is not, and nothing is inserted. *)
Lemma insertChildren_with_unbuildable_specs_witness :
  createNodes (ic_children brokenSpecs) (openDocument threeParas)
  = (Throw "Unexpected XML data item (not text or element).", openDocument threeParas)
  ∧ y (doInsertChildren (Attached []) brokenSpecs (openDocument threeParas)).2 = threeParas
  ∧ notified (doInsertChildren (Attached []) brokenSpecs (openDocument threeParas)).2 = []
  ∧ doInsertChildren (Attached []) brokenSpecs (openDocument threeParas)
    = (Throw "Unexpected XML data item (not text or element).", openDocument threeParas).
Proof.
  assert (Hnode : nodeAt [] (y (openDocument threeParas))
                  = Some (XmlElement (JStr "UNDEFINED") {["$id" := JStr "root-id"]}
                            [para "a"; para "b"; para "c"])) by reflexivity.
  assert (Hfail : createNodes (ic_children brokenSpecs) (openDocument threeParas)
                  = (Throw "Unexpected XML data item (not text or element).",
                     openDocument threeParas)) by reflexivity.
  destruct (insertChildren_with_unbuildable_specs [] (openDocument threeParas) _ _ _
              brokenSpecs _ _ Hnode Hfail) as (_ & Hy & Hnotified & Hresult).
  split; [exact Hfail|]. split; [exact Hy|]. split; [exact Hnotified|].
  apply (Hresult 0). reflexivity.
Defined.

(** The specs of an element and of a text: an element named [div], then a
    text node. *)
Lemma createNodes_one_node_per_spec_witness :
  createNodes (JArr [divSpec (JStr "c1"); JObj [("text", JObj [("delta", JArr [])])]])
    (openDocument rootOnly)
  = (Done [divBuilt "c1"; XmlText []], openDocument rootOnly)
  ∧ isElement (divBuilt "c1") = true
  ∧ nodeNameOf (divBuilt "c1") = JStr "div"
  ∧ isElement (XmlText []) = false.
Proof.
  assert (Hbuilt : createNodes
                     (JArr [divSpec (JStr "c1"); JObj [("text", JObj [("delta", JArr [])])]])
                     (openDocument rootOnly)
                   = (Done [divBuilt "c1"; XmlText []], openDocument rootOnly))
    by reflexivity.
  pose proof (createNodes_one_node_per_spec _ _ _ _ Hbuilt) as Hall.
  apply Forall2_cons_1 in Hall as [(_ & Helement & Hname) Hall].
  apply Forall2_cons_1 in Hall as [Htext _].
  split; [exact Hbuilt|]. split; [exact Helement|]. split; [exact Hname|exact Htext].
Defined.

(** Two ways to write the same tree. *)
Lemma serialize_is_injective_witness :
  serialize (textUnderRoot "t1" [{| sp_insert := "Hello World"; sp_attributes := ∅ |}])
  = serialize helloWorld
  ∧ textUnderRoot "t1" [{| sp_insert := "Hello World"; sp_attributes := ∅ |}] = helloWorld.
Proof.
  assert (Hsame : serialize (textUnderRoot "t1"
                               [{| sp_insert := "Hello World"; sp_attributes := ∅ |}])
                  = serialize helloWorld) by reflexivity.
  split; [exact Hsame|]. exact (serialize_is_injective _ _ Hsame).
Defined.

(** The notification for [keysEvent] on [titled]. *)
Lemma notifications_are_well_formed_witness :
  translate titled keysEvent = Done keysNotice
  ∧ Forall elementEntryOk (elements keysNotice)
  ∧ Forall textEntryOk (text keysNotice)
  ∧ text keysNotice = [].
Proof.
  assert (Hmessage : translate titled keysEvent = Done keysNotice)
    by reflexivity.
  destruct (notifications_are_well_formed _ _ _ Hmessage) as (Helements & Htext & _).
  split; [exact Hmessage|]. split; [exact Helements|]. split; [exact Htext|reflexivity].
Defined.

(** [keysEvent] twice on [titled]: two notifications, in that order. *)
Lemma observer_notifies_each_event_in_order_witness :
  observeDeep [keysEvent; keysEvent] (openDocument titled)
  = (Done tt, sending (openDocument titled) [keysNotice; keysNotice]).
Proof.
  assert (Hmessage : translate (y (openDocument titled)) keysEvent = Done keysNotice)
    by reflexivity.
  assert (Hall : Forall2 (λ yxmlEvent message,
                            translate (y (openDocument titled)) yxmlEvent = Done message)
                   [keysEvent; keysEvent] [keysNotice; keysNotice])
    by (repeat first [exact Hmessage | constructor]).
  exact (proj1 (observer_notifies_each_event_in_order [keysEvent; keysEvent]
                  [keysNotice; keysNotice] (openDocument titled) Hall)).
Defined.

(** [{setAttributes: {title: "T", lang: "en"}}] on the root of [rootOnly]. *)
Lemma setAttributes_sets_every_key_witness :
  nodeAt [] (y (openDocument rootOnly))
  = Some (XmlElement (JStr "UNDEFINED") {["$id" := JStr "root-id"]} [])
  ∧ ∃ s', doSetAttributes (Attached []) (JObj [("title", JStr "T"); ("lang", JStr "en")])
            (openDocument rootOnly) = (Done tt, s')
          ∧ y s' = XmlElement (JStr "UNDEFINED")
                     {["$id" := JStr "root-id"; "title" := JStr "T"; "lang" := JStr "en"]} []
          ∧ length (notified s') = 2.
Proof.
  assert (Hnode : nodeAt [] (y (openDocument rootOnly))
                  = Some (XmlElement (JStr "UNDEFINED") {["$id" := JStr "root-id"]} []))
    by reflexivity.
  split; [exact Hnode|].
  destruct (setAttributes_sets_every_key [] (openDocument rootOnly) _ _ _
              (JObj [("title", JStr "T"); ("lang", JStr "en")]) Hnode)
    as (s' & Hrun & Hy & Hnotified & _).
  exists s'. split; [exact Hrun|]. split.
  - rewrite Hy. reflexivity.
  - rewrite Hnotified. reflexivity.
Defined.

(** [{removeAttributes: ["title"]}] on the root of [titled]. *)
Lemma removeAttributes_removes_every_name_witness :
  nodeAt [] (y (openDocument titled))
  = Some (XmlElement (JStr "UNDEFINED") {["$id" := JStr "root-id"; "title" := JStr "new"]} [])
  ∧ ∃ s', doRemoveAttributes (Attached []) ["title"] (openDocument titled) = (Done tt, s')
          ∧ y s' = rootOnly.
Proof.
  assert (Hnode : nodeAt [] (y (openDocument titled))
                  = Some (XmlElement (JStr "UNDEFINED")
                            {["$id" := JStr "root-id"; "title" := JStr "new"]} []))
    by reflexivity.
  split; [exact Hnode|].
  destruct (removeAttributes_removes_every_name [] (openDocument titled) _ _ _ ["title"] Hnode)
    as (s' & Hrun & Hy & _).
  exists s'. split; [exact Hrun|]. rewrite Hy. reflexivity.
Defined.



(** [{nodeID: "b", delete: true}] on [threeParas] is aimed at child 1, an
    element. *)
Lemma command_target_is_an_element_witness :
  isElement (y (openDocument threeParas)) = true
  ∧ resolve (deleteNode (Some "b")) (y (openDocument threeParas)) = Some [1]
  ∧ ∃ nm a cs, nodeAt [1] (y (openDocument threeParas)) = Some (XmlElement nm a cs).
Proof.
  assert (Htarget : resolve (deleteNode (Some "b")) (y (openDocument threeParas)) = Some [1])
    by reflexivity.
  split; [reflexivity|]. split; [exact Htarget|].
  exact (proj1 (command_target_is_an_element (deleteNode (Some "b")) (openDocument threeParas)
                  [1] eq_refl Htarget)).
Defined.

(** The ten bytes of "Many hands" through the sample codec. *)
Lemma bytes_round_trip_witness :
  uint8ArrayToBase64 SamplePlatform.btoa manyHands = "TWFueSBoYW5kcw=="
  ∧ SamplePlatform.atob (SamplePlatform.btoa (fromCharCodes manyHands))
    = Done (fromCharCodes manyHands)
  ∧ base64ToUint8Array SamplePlatform.atob
      (uint8ArrayToBase64 SamplePlatform.btoa manyHands)
    = Done manyHands.
Proof.
  assert (Hinverse : SamplePlatform.atob (SamplePlatform.btoa (fromCharCodes manyHands))
                     = Done (fromCharCodes manyHands)) by reflexivity.
  split; [reflexivity|]. split; [exact Hinverse|].
  exact (bytes_round_trip SamplePlatform.btoa SamplePlatform.atob manyHands Hinverse).
Defined.

(** ["doc-1"] of [twoDocuments] unregistered: [deleteB] is refused, and
    ["doc-2"] is still there. *)
Lemma unregistered_document_is_gone_witness :
  is_Some (Entrypoint.documents twoDocuments !! "doc-1")
  ∧ (Entrypoint.unregisterDocument "doc-1" twoDocuments).1 = Done tt
  ∧ (Entrypoint.applyChanges deleteB (Entrypoint.unregisterDocument "doc-1" twoDocuments).2).1
    = Throw "cannot apply changes, document was not registered doc-1"
  ∧ Entrypoint.documents (Entrypoint.unregisterDocument "doc-1" twoDocuments).2 !! "doc-2"
    = Some (openDocument helloWorld).
Proof.
  assert (Hregistered : is_Some (Entrypoint.documents twoDocuments !! "doc-1")).
  { exists (openDocument threeParas). reflexivity. }
  destruct (unregistered_document_is_gone "doc-1" twoDocuments deleteB Hregistered eq_refl)
    as (Hdone & Hrefused & _ & Hothers).
  split; [exact Hregistered|]. split; [exact Hdone|]. split.
  - exact (f_equal fst Hrefused).
  - rewrite Hothers by discriminate. reflexivity.
Defined.
